(** * Interview-Proctor-Automation: the interview conductor and the intrusion detector

    A shallow embedding of [interview_conductor.py] and [intrusion_detector.py]
    and the properties of the specification that were checked against it.

    Conventions of the embedding.
    - Python [int] is [Z].
    - Python [float] (IEEE binary64) is modelled exactly: every finite double
      is an integer multiple of 2^-1074, and a double is represented by that
      integer (module [PyFloat]).  Arithmetic is correctly rounded, ties to
      even, as CPython and NumPy compute it.
    - Python [str] is [string]; [str.strip] and [str.lower] are modelled on
      the ASCII range.
    - Results of external collaborators (the language model, the microphone,
      the recogniser, the camera, the face detector, the clock) are inputs of
      the functions that consume them.
    - What the program says and prints is collected in a trace of events. *)

From Stdlib Require Import ZArith Bool List String Ascii Lia.
Import ListNotations.
Local Open Scope Z_scope.

(* ================================================================= *)
(** ** Definitions *)
(* ================================================================= *)

(** *** IEEE binary64, as Python's [float] *)

Module PyFloat.

(** A finite double [x] is represented by the integer [x * 2^1074]: 2^-1074 is
    the smallest positive double and every finite double is a multiple of it.
    An integer of magnitude 2^2098 or more stands for an infinity. *)
Definition float : Set := Z.

Definition unit_exp : Z := 1074.
Definition one : float := 2 ^ unit_exp.
Definition huge : float := 2 ^ (1024 + unit_exp).

(** Nearest integer to [num / den], ties to even ([0 <= num], [0 < den]). *)
Definition rne (num den : Z) : Z :=
  let q := num / den in
  let r := num mod den in
  if 2 * r <? den then q
  else if den <? 2 * r then q + 1
  else if Z.even q then q else q + 1.

(** Exponent of the unit in the last place of the quotient [num / den],
    relative to 2^-1074: the quotient has 53 significant bits, and below
    2^-1022 the spacing stays 2^-1074. *)
Definition ulp_shift (num den : Z) : Z := Z.max 0 (Z.log2 (num / den) - 52).

(** The double nearest to the rational [num / den] units ([0 < den]). *)
Definition round_ratio (num den : Z) : float :=
  let a := Z.abs num in
  let t := ulp_shift a den in
  Z.sgn num * (rne a (den * 2 ^ t) * 2 ^ t).

Inductive result : Set :=
| Finite (x : float)
| ZeroDivisionError
| OverflowError.

(** [float(n)] for an int [n], as in a mixed int/float operation. *)
Definition of_int (n : Z) : result :=
  let x := round_ratio (n * one) 1 in
  if huge <=? Z.abs x then OverflowError else Finite x.

(** [a / b] for two ints: the correctly rounded quotient. *)
Definition truediv (a b : Z) : result :=
  if b =? 0 then ZeroDivisionError
  else
    let x := Z.sgn b * round_ratio (a * one) (Z.abs b) in
    if huge <=? Z.abs x then OverflowError else Finite x.

(** [x - y] and [x / n] for doubles [x], [y] and a small int [n]. *)
Definition sub (x y : float) : float := round_ratio (x - y) 1.
Definition div_int (x : float) (n : Z) : float :=
  Z.sgn n * round_ratio x (Z.abs n).

(** [int(x)]: truncation towards zero. *)
Definition to_int (x : float) : Z := Z.quot x one.

Definition ltb (x y : float) : bool := x <? y.
Definition gtb (x y : float) : bool := y <? x.

(** The literal [0.3]: 0x1.3333333333333p-2. *)
Definition lit_0_3 : float := 5404319552844595 * 2 ^ (unit_exp - 54).

End PyFloat.

(** *** Python sequences *)

Module PySeq.

(** A slice bound [i] of a sequence of length [n], as Python normalises it. *)
Definition bound (n i : Z) : Z :=
  if i <? 0 then Z.max 0 (i + n) else Z.min i n.

(** [l[a:b]] *)
Definition slice {A : Type} (l : list A) (a b : Z) : list A :=
  let n := Z.of_nat (List.length l) in
  firstn (Z.to_nat (bound n b - bound n a)) (skipn (Z.to_nat (bound n a)) l).

(** [l[:b]] *)
Definition slice_to {A : Type} (l : list A) (b : Z) : list A :=
  slice l 0 b.

Fixpoint update {A : Type} (l : list A) (i : nat) (v : A) : list A :=
  match l, i with
  | [], _ => []
  | _ :: t, O => v :: t
  | h :: t, S j => h :: update t j v
  end.

(** [l[i] = v]; [None] is IndexError. *)
Definition setitem {A : Type} (l : list A) (i : Z) (v : A) : option (list A) :=
  let n := Z.of_nat (List.length l) in
  let j := if i <? 0 then i + n else i in
  if (0 <=? j) && (j <? n) then Some (update l (Z.to_nat j) v) else None.

(** [l[i]]; [None] is IndexError. *)
Definition getitem {A : Type} (l : list A) (i : Z) : option A :=
  let n := Z.of_nat (List.length l) in
  let j := if i <? 0 then i + n else i in
  if (0 <=? j) && (j <? n) then nth_error l (Z.to_nat j) else None.

End PySeq.

(** *** Python strings *)

Module PyStr.

Definition newline : ascii := "010"%char.

(** ASCII white space, as [str.strip] removes it. *)
Definition isspace (c : ascii) : bool :=
  let n := nat_of_ascii c in
  (((9 <=? n) && (n <=? 13)) || ((28 <=? n) && (n <=? 32)))%nat.

Fixpoint lstrip (s : string) : string :=
  match s with
  | String c rest => if isspace c then lstrip rest else s
  | EmptyString => EmptyString
  end.

Definition reverse (s : string) : string :=
  string_of_list_ascii (rev (list_ascii_of_string s)).

Definition rstrip (s : string) : string := reverse (lstrip (reverse s)).

Definition strip (s : string) : string := rstrip (lstrip s).

(** [s.split(sep)] for a one-character separator. *)
Fixpoint split (sep : ascii) (s : string) : list string :=
  match s with
  | EmptyString => [EmptyString]
  | String c rest =>
      if Ascii.eqb c sep then EmptyString :: split sep rest
      else match split sep rest with
           | piece :: pieces => String c piece :: pieces
           | [] => [String c EmptyString]
           end
  end.

Definition startswith (s prefix : string) : bool := String.prefix prefix s.

(** [s[n:]] *)
Fixpoint drop (n : nat) (s : string) : string :=
  match n, s with
  | O, _ => s
  | S k, String _ rest => drop k rest
  | S _, EmptyString => EmptyString
  end.

Definition lower_char (c : ascii) : ascii :=
  let n := nat_of_ascii c in
  if ((65 <=? n) && (n <=? 90))%nat then ascii_of_nat (n + 32) else c.

Fixpoint lower (s : string) : string :=
  match s with
  | String c rest => String (lower_char c) (lower rest)
  | EmptyString => EmptyString
  end.

(** [sub in s] *)
Fixpoint contains (s sub : string) : bool :=
  String.prefix sub s
  || match s with
     | String _ rest => contains rest sub
     | EmptyString => false
     end.

Definition nonempty (s : string) : bool :=
  match s with EmptyString => false | String _ _ => true end.

End PyStr.

(** *** The intrusion detector ([intrusion_detector.py]) *)

Module Detector.

(** A frame is represented by its matrix of grey levels 0..255, rows first:
    the detector looks at frames only through [cv2.cvtColor(_, BGR2GRAY)],
    which acts pixel by pixel and so commutes with cropping. *)
Definition image : Set := list (list Z).

Definition shape0 (img : image) : Z := Z.of_nat (List.length img).
Definition shape1 (img : image) : Z := Z.of_nat (List.length (hd [] img)).

(** [img[y1:y2, x1:x2]] *)
Definition crop (img : image) (y1 y2 x1 x2 : Z) : image :=
  map (fun row => PySeq.slice row x1 x2) (PySeq.slice img y1 y2).

(** A detected face [(x, y, w, h)] and a bounding box [(x1, y1, x2, y2)]. *)
Definition face : Set := (Z * Z * Z * Z)%type.
Definition bbox : Set := (Z * Z * Z * Z)%type.

Record detector : Set := mkDetector {
  reference_face : option image;
  face_bbox : option bbox;
  monitoring : bool;
  intrusion_detected : bool;
  intrusion_count : Z;
  last_intrusion_time : PyFloat.float;
  camera_opened : bool          (* [self.camera] is set and [isOpened()] *)
}.

(** Attributes that [__init__] sets and nothing changes. *)
Definition frame_width : Z := 640.
Definition frame_height : Z := 480.
Definition bbox_padding : Z := 20.
Definition intrusion_cooldown : Z := 5.
Definition intrusion_threshold : PyFloat.float := PyFloat.lit_0_3.

Definition init : detector :=
  {| reference_face := None; face_bbox := None; monitoring := false;
     intrusion_detected := false; intrusion_count := 0;
     last_intrusion_time := 0; camera_opened := false |}.

Definition set_camera (d : detector) (b : bool) : detector :=
  {| reference_face := reference_face d; face_bbox := face_bbox d;
     monitoring := monitoring d; intrusion_detected := intrusion_detected d;
     intrusion_count := intrusion_count d;
     last_intrusion_time := last_intrusion_time d; camera_opened := b |}.

Definition set_monitoring (d : detector) (b : bool) : detector :=
  {| reference_face := reference_face d; face_bbox := face_bbox d;
     monitoring := b; intrusion_detected := intrusion_detected d;
     intrusion_count := intrusion_count d;
     last_intrusion_time := last_intrusion_time d;
     camera_opened := camera_opened d |}.

(** [start_camera]; [opens] is what [isOpened()] answers. *)
Definition start_camera (d : detector) (opens : bool) : detector * bool :=
  (set_camera d opens, opens).

(** The index of the largest face, lines 75-81: a later face wins only when
    strictly larger. *)
Fixpoint largest_from (faces : list face) (i : nat)
         (largest_face_idx : nat) (largest_area : Z) : nat :=
  match faces with
  | [] => largest_face_idx
  | (_, _, w, h) :: rest =>
      let area := w * h in
      if largest_area <? area
      then largest_from rest (S i) i area
      else largest_from rest (S i) largest_face_idx largest_area
  end.

Definition select_face (faces : list face) : option face :=
  match faces with
  | [] => None
  | [f] => Some f
  | _ => nth_error faces (largest_from faces 0 0 0)
  end.

(** Lines 87-91: the padded box, clamped to the frame.  The coordinates are
    those of a camera frame, far inside the range of the detector's 32-bit
    integers, so that no arithmetic wraps. *)
Definition padded_bbox (frame : image) (f : face) : bbox :=
  let '(x, y, w, h) := f in
  let x1 := Z.max 0 (x - bbox_padding) in
  let y1 := Z.max 0 (y - bbox_padding) in
  let x2 := Z.min (shape1 frame) (x + w + bbox_padding) in
  let y2 := Z.min (shape0 frame) (y + h + bbox_padding) in
  (x1, y1, x2, y2).

(** What the camera and the face detector answer during a capture. *)
Record capture_env : Set := mkCaptureEnv {
  cap_opens : bool;              (* [isOpened()] after [start_camera] *)
  cap_frame : option image;      (* [camera.read()]; [None] when [ret] is false *)
  cap_faces : list face          (* [detectMultiScale] *)
}.

Definition capture_reference_face (d : detector) (env : capture_env)
  : detector * bool :=
  let '(d, ok) :=
    if camera_opened d then (d, true) else start_camera d (cap_opens env) in
  if negb ok then (d, false)
  else
    match cap_frame env with
    | None => (d, false)
    | Some frame =>
        match select_face (cap_faces env) with
        | None => (d, false)
        | Some f =>
            let '(x1, y1, x2, y2) := padded_bbox frame f in
            ({| reference_face := Some (crop frame y1 y2 x1 x2);
                face_bbox := Some (x1, y1, x2, y2);
                monitoring := monitoring d;
                intrusion_detected := intrusion_detected d;
                intrusion_count := intrusion_count d;
                last_intrusion_time := last_intrusion_time d;
                camera_opened := camera_opened d |}, true)
        end
    end.

Definition start_monitoring (d : detector) : detector * bool :=
  match reference_face d, face_bbox d with
  | Some _, Some _ =>
      if monitoring d then (d, true)
      else
        ({| reference_face := reference_face d; face_bbox := face_bbox d;
            monitoring := true;
            intrusion_detected := false;
            intrusion_count := 0;
            last_intrusion_time := last_intrusion_time d;
            camera_opened := camera_opened d |}, true)
  | _, _ => (d, false)
  end.

Definition stop_monitoring (d : detector) : detector * bool :=
  (set_camera (set_monitoring d false) false, true).

(** [cv2.absdiff], [cv2.threshold(_, 30, 255, THRESH_BINARY)] and
    [np.sum(_ > 0)] on grey images. *)
Definition absdiff (a b : image) : image :=
  map (fun rows => map (fun px => Z.abs (fst px - snd px))
                       (combine (fst rows) (snd rows)))
      (combine a b).

Definition threshold_binary (cut maxval : Z) (img : image) : image :=
  map (map (fun v => if cut <? v then maxval else 0)) img.

Definition count_positive (img : image) : Z :=
  fold_right (fun row acc =>
                Z.of_nat (List.length (filter (fun v => 0 <? v) row)) + acc) 0 img.

(** The fraction of differing pixels, lines 190-197.  NumPy divides two
    integers as doubles; where Python would raise it yields nan or inf, and
    only 0/0 = nan can arise here. *)
Definition diff_percentage (ref_gray curr_gray : image) : PyFloat.result :=
  let diff := absdiff ref_gray curr_gray in
  let thresholded := threshold_binary 30 255 diff in
  PyFloat.truediv (count_positive thresholded)
                  (shape0 thresholded * shape1 thresholded).

(** Lines 182-184: the region that is compared is the region itself or, when
    its shape differs from the reference's, what [cv2.resize] returns. *)
Definition compared (reference current_roi resized : image) : image :=
  if (shape0 current_roi =? shape0 reference)
     && (shape1 current_roi =? shape1 reference)
  then current_roi else resized.

(** [_check_intrusion] *)
Definition check_intrusion (reference : image) (current_roi resized : image)
  : bool :=
  let current_roi := compared reference current_roi resized in
  match diff_percentage reference current_roi with
  | PyFloat.Finite p => PyFloat.gtb p intrusion_threshold
  | _ => false
  end.

Record status : Set := mkStatus {
  status_monitoring : bool;
  status_intrusion_detected : bool;
  status_intrusion_count : Z
}.

Definition get_intrusion_status (d : detector) : status :=
  {| status_monitoring := monitoring d;
     status_intrusion_detected := intrusion_detected d;
     status_intrusion_count := intrusion_count d |}.

(** One camera frame of the monitoring loop. *)
Record frame_env : Set := mkFrameEnv {
  frame_read : option image;     (* [camera.read()] *)
  frame_resized : image          (* [cv2.resize] of the region, if called *)
}.

(** A recorded intrusion: its number and the time stored for it. *)
Record intrusion_event : Set := mkEvent {
  event_number : Z;
  event_time : PyFloat.float
}.

(** The state of the loop: the detector, how many times [time.time()] has
    been called, and the events recorded so far, latest first. *)
Record loop_state : Set := mkLoop {
  loop_detector : detector;
  loop_ticks : nat;
  loop_events : list intrusion_event
}.

Section MonitorLoop.

(** [clock k] is what the k-th call of [time.time()] returns. *)
Variable clock : nat -> PyFloat.float.

(** The body of [while self.monitoring], lines 151-178.  The guard of line
    171 is evaluated left to right, so the clock is read only for a frame
    that shows an intrusion.  [start_monitoring] lets the loop run only with
    a reference and a box; without them the state is left as it is. *)
Definition monitor_step (st : loop_state) (env : frame_env) : loop_state :=
  let d := loop_detector st in
  match frame_read env with
  | None => st
  | Some frame =>
      match face_bbox d, reference_face d with
      | Some (x1, y1, x2, y2), Some reference =>
          let roi := crop frame y1 y2 x1 x2 in
          let intrusion := check_intrusion reference roi (frame_resized env) in
          if intrusion then
            let now := clock (loop_ticks st) in
            if PyFloat.gtb (PyFloat.sub now (last_intrusion_time d))
                           (intrusion_cooldown * PyFloat.one)
            then
              let stamp := clock (S (loop_ticks st)) in
              let d' :=
                {| reference_face := reference_face d;
                   face_bbox := face_bbox d;
                   monitoring := monitoring d;
                   intrusion_detected := intrusion_detected d;
                   intrusion_count := intrusion_count d + 1;
                   last_intrusion_time := stamp;
                   camera_opened := camera_opened d |} in
              {| loop_detector := d';
                 loop_ticks := S (S (loop_ticks st));
                 loop_events :=
                   mkEvent (intrusion_count d') stamp :: loop_events st |}
            else
              {| loop_detector := d; loop_ticks := S (loop_ticks st);
                 loop_events := loop_events st |}
          else st
      | _, _ => st
      end
  end.

(** The iterations of [while self.monitoring] over the frames that the
    camera delivers. *)
Definition monitor_frames (st : loop_state) (frames : list frame_env)
  : loop_state :=
  fold_left
    (fun st env => if monitoring (loop_detector st)
                   then monitor_step st env else st)
    frames st.

(** [_monitor_loop]; [opens] answers [isOpened()] should the camera have to
    be started. *)
Definition monitor_loop (d : detector) (opens : bool) (ticks : nat)
           (frames : list frame_env) : loop_state :=
  let '(d, ok) :=
    if camera_opened d then (d, true) else start_camera d opens in
  if negb ok then mkLoop (set_monitoring d false) ticks []
  else monitor_frames (mkLoop d ticks []) frames.

End MonitorLoop.

(** The states the detector can be in: what its methods and the frames of
    its monitoring thread make of the initial state, in any interleaving. *)
Inductive reachable : detector -> Prop :=
| reach_init : reachable init
| reach_start_camera d opens :
    reachable d -> reachable (fst (start_camera d opens))
| reach_capture d env :
    reachable d -> reachable (fst (capture_reference_face d env))
| reach_start d :
    reachable d -> reachable (fst (start_monitoring d))
| reach_stop d :
    reachable d -> reachable (fst (stop_monitoring d))
| reach_loop_entry d opens ticks :
    reachable d -> reachable (loop_detector (monitor_loop (fun _ => 0) d opens ticks []))
| reach_frame d clock ticks events env :
    reachable d ->
    reachable (loop_detector (monitor_step clock (mkLoop d ticks events) env)).

(** Events, latest first, each at least [gap] seconds after the one before
    it and numbered consecutively. *)
Fixpoint spaced (gap : Z) (events : list intrusion_event) : Prop :=
  match events with
  | later :: rest =>
      match rest with
      | earlier :: _ =>
          event_time earlier + gap * PyFloat.one <= event_time later /\
          event_number later = event_number earlier + 1
      | [] => True
      end /\ spaced gap rest
  | [] => True
  end.

Definition nondecreasing (clock : nat -> PyFloat.float) : Prop :=
  forall i j : nat, (i <= j)%nat -> clock i <= clock j.

(** What holds of the loop state after any number of frames, [count0] being
    the counter when the loop was entered. *)
Definition loop_inv (clock : nat -> PyFloat.float) (count0 : Z)
           (st : loop_state) : Prop :=
  spaced intrusion_cooldown (loop_events st) /\
  intrusion_count (loop_detector st)
  = count0 + Z.of_nat (List.length (loop_events st)) /\
  match loop_events st with
  | e :: _ => event_time e = last_intrusion_time (loop_detector st) /\
              event_number e = intrusion_count (loop_detector st) /\
              exists k, (k < loop_ticks st)%nat /\ event_time e = clock k
  | [] => True
  end.

(** The box lies in [0, W) x [0, H), as the specification puts it. *)
Definition strictly_within (W H : Z) (b : bbox) : Prop :=
  let '(x1, y1, x2, y2) := b in 0 <= x1 /\ 0 <= y1 /\ x2 < W /\ y2 < H.

(** The box is a region of the frame: its far corner is an exclusive slice
    bound and may equal the frame's width and height. *)
Definition region_of (W H : Z) (b : bbox) : Prop :=
  let '(x1, y1, x2, y2) := b in 0 <= x1 /\ 0 <= y1 /\ x2 <= W /\ y2 <= H.

Definition face_inside (W H : Z) (f : face) : Prop :=
  let '(x, y, w, h) := f in
  0 <= x /\ 0 <= y /\ 0 < w /\ 0 < h /\ x + w <= W /\ y + h <= H.

(** The two numbers whose quotient [_check_intrusion] compares with 0.3. *)
Definition differing_pixels (ref_gray curr_gray : image) : Z :=
  count_positive (threshold_binary 30 255 (absdiff ref_gray curr_gray)).
Definition total_pixels (ref_gray curr_gray : image) : Z :=
  let t := threshold_binary 30 255 (absdiff ref_gray curr_gray) in
  shape0 t * shape1 t.

End Detector.

(** *** The interview conductor ([interview_conductor.py]) *)

Module Conductor.

(** [setup_interview], lines 134-140: the number of questions.  The quotient
    is Python's true division of two ints, truncated by [int]. *)
Definition question_count (interview_duration answer_time : Z) : option Z :=
  let buffer_time_per_question := 15 in
  let total_available_seconds := interview_duration * 60 in
  let time_per_question := answer_time + buffer_time_per_question in
  match PyFloat.truediv total_available_seconds time_per_question with
  | PyFloat.Finite q => Some (Z.max 1 (Z.min 10 (PyFloat.to_int q)))
  | _ => None
  end.


(** The attributes of [InterviewConductor]; the two thread handles are left
    out. *)
Record conductor : Set := mkConductor {
  job_role : string;
  interview_duration : Z;
  answer_time : Z;
  num_questions : Z;
  interview_questions : list string;
  candidate_answers : list string;
  current_question_index : Z;
  interview_in_progress : bool;
  stop_recording : bool;
  is_tech_role : bool;
  intrusion_detector : Detector.detector;
  use_intrusion_detection : bool
}.

Definition init : conductor :=
  {| job_role := ""; interview_duration := 0; answer_time := 0;
     num_questions := 0; interview_questions := []; candidate_answers := [];
     current_question_index := 0; interview_in_progress := false;
     stop_recording := false; is_tech_role := false;
     intrusion_detector := Detector.init; use_intrusion_detection := false |}.

Definition with_questions (c : conductor) (v : list string) : conductor :=
  mkConductor (job_role c) (interview_duration c) (answer_time c)
    (num_questions c) v (candidate_answers c) (current_question_index c)
    (interview_in_progress c) (stop_recording c) (is_tech_role c)
    (intrusion_detector c) (use_intrusion_detection c).

Definition with_answers (c : conductor) (v : list string) : conductor :=
  mkConductor (job_role c) (interview_duration c) (answer_time c)
    (num_questions c) (interview_questions c) v (current_question_index c)
    (interview_in_progress c) (stop_recording c) (is_tech_role c)
    (intrusion_detector c) (use_intrusion_detection c).

Definition with_index (c : conductor) (v : Z) : conductor :=
  mkConductor (job_role c) (interview_duration c) (answer_time c)
    (num_questions c) (interview_questions c) (candidate_answers c) v
    (interview_in_progress c) (stop_recording c) (is_tech_role c)
    (intrusion_detector c) (use_intrusion_detection c).

Definition with_in_progress (c : conductor) (v : bool) : conductor :=
  mkConductor (job_role c) (interview_duration c) (answer_time c)
    (num_questions c) (interview_questions c) (candidate_answers c)
    (current_question_index c) v (stop_recording c) (is_tech_role c)
    (intrusion_detector c) (use_intrusion_detection c).

Definition with_stop_recording (c : conductor) (v : bool) : conductor :=
  mkConductor (job_role c) (interview_duration c) (answer_time c)
    (num_questions c) (interview_questions c) (candidate_answers c)
    (current_question_index c) (interview_in_progress c) v (is_tech_role c)
    (intrusion_detector c) (use_intrusion_detection c).

Definition with_detector (c : conductor) (v : Detector.detector) : conductor :=
  mkConductor (job_role c) (interview_duration c) (answer_time c)
    (num_questions c) (interview_questions c) (candidate_answers c)
    (current_question_index c) (interview_in_progress c) (stop_recording c)
    (is_tech_role c) v (use_intrusion_detection c).

Definition with_detection (c : conductor) (v : bool) : conductor :=
  mkConductor (job_role c) (interview_duration c) (answer_time c)
    (num_questions c) (interview_questions c) (candidate_answers c)
    (current_question_index c) (interview_in_progress c) (stop_recording c)
    (is_tech_role c) (intrusion_detector c) v.

(** What is passed to [speak]. *)
Inductive utterance : Set :=
| Welcome
| RoleInfo (role : string) (minutes : Z)
| AnswerTimeInfo (seconds : Z)
| QuestionTotal (n : Z)
| DetectionNotice
| LetsBegin
| AskQuestion (number : Z) (question : string)
| IntrusionWarning (count : Z)
| SkipNotice (skipped : Z)
| ThanksNext
| ThanksAll
| InterviewComplete
| TerminatedEarly
| InterviewStopped
| FeedbackReady.

(** What the conductor says, plays, prints and asks of the language model;
    the setup dialogue and the sounds of the timer thread are left out. *)
Inductive event : Set :=
| Speak (u : utterance)
| PlaySound (kind : string)
| PrintQuestionError (message : string)
| PrintAnswer (answer : string)
| PrintSummary (transcript : list (string * string))
| PrintIntrusionReport (count : Z)
| AskFeedback (transcript : list (string * string)) (intrusions : option Z)
| PrintFeedback (feedback : string)
| PrintFeedbackError.

(** The fallback bank of [generate_questions]. *)
Definition generic_questions (job_role : string) : list string :=
  [ "Tell me about yourself and your experience.";
    "Why are you interested in this " ++ job_role ++ " position?";
    "What are your greatest strengths and weaknesses?";
    "Describe a challenging situation you faced and how you handled it.";
    "Where do you see yourself in five years?";
    "What do you know about our company?";
    "How do you handle stress and pressure?";
    "What is your greatest professional achievement?";
    "How would your colleagues describe you?";
    "Do you have any questions for us?" ]%string.

(** The fourth prefix of line 180, byte for byte. *)
Definition bullet_prefix : string :=
  string_of_list_ascii
    (map ascii_of_nat [195; 162; 226; 130; 172; 194; 162; 32]%nat).

Definition prefixes : list string :=
  [ "- "; "* "; ". "; bullet_prefix; "1. "; "2. "; "3. "; "4. "; "5. ";
    "6. "; "7. "; "8. "; "9. "; "10. " ]%string.

(** Lines 179-182. *)
Definition clean_line (line : string) : string :=
  fold_left
    (fun line prefix =>
       if PyStr.startswith line prefix
       then PyStr.strip (PyStr.drop (String.length prefix) line)
       else line)
    prefixes (PyStr.strip line).

(** Line 184. *)
Definition usable (line : string) : bool :=
  PyStr.nonempty line
  && negb (existsb (PyStr.startswith (PyStr.lower line))
                   [ "here"; "question"; "following" ]%string).

(** Lines 174-185: the usable lines of a response. *)
Definition extract_questions (response : string) : list string :=
  filter usable
         (map clean_line (PyStr.split PyStr.newline (PyStr.strip response))).

(** [generate_questions]; [response] is what [call_ollama] returns. *)
Definition generate_questions (c : conductor) (response : option string)
  : conductor * list event :=
  let fallback (message : string) :=
    let questions :=
      PySeq.slice_to (generic_questions (job_role c)) (num_questions c) in
    (with_answers (with_questions c questions)
                  (repeat ""%string (List.length questions)),
     [PrintQuestionError message]) in
  match response with
  | Some (String _ _ as response) =>
      match extract_questions response with
      | [] => fallback "No valid questions generated"%string
      | questions =>
          let n := Z.of_nat (List.length questions) in
          let chosen :=
            if num_questions c <? n
            then PySeq.slice_to questions (num_questions c)
            else if n <? num_questions c
            then questions
                 ++ PySeq.slice_to (generic_questions (job_role c))
                                   (num_questions c - n)
            else questions in
          (with_answers (with_questions c chosen)
                        (repeat ""%string (List.length chosen)), [])
      end
  | _ => fallback "No response from Ollama API"%string
  end.


(** An audio chunk is represented by what [recognize_google] makes of it. *)
Inductive recognition : Set :=
| Recognised (text : string)
| UnknownValueError
| RequestError.

(** One [recognizer.listen] of the capture loop. *)
Inductive listen : Set :=
| Heard (audio : recognition)
| WaitTimeoutError
| ListenError.

(** Lines 302-310 over the attempts made while the loop condition held. *)
Fixpoint capture (attempts : list listen) : list recognition :=
  match attempts with
  | [] => []
  | Heard audio :: rest => audio :: capture rest
  | WaitTimeoutError :: rest => capture rest
  | ListenError :: _ => []
  end.

(** Lines 314-322. *)
Definition transcript (audio_data : list recognition) : string :=
  fold_left
    (fun full_text audio =>
       match audio with
       | Recognised text => (full_text ++ " " ++ text)%string
       | _ => full_text
       end)
    audio_data ""%string.

Definition no_answer : string := "[No answer recorded]".

(** The fragments that were transcribed, in the order they were heard. *)
Fixpoint texts (audio_data : list recognition) : list string :=
  match audio_data with
  | [] => []
  | Recognised text :: rest => text :: texts rest
  | _ :: rest => texts rest
  end.



(** Lines 312-327 of [record_audio]: the answer is written once the capture
    loop has ended.  An index out of range ends the thread with IndexError. *)
Definition finish_recording (c : conductor) (question_index : Z)
           (audio_data : list recognition) : conductor * list event :=
  let answer :=
    match audio_data with
    | _ :: _ =>
        if interview_in_progress c
        then PyStr.strip (transcript audio_data) else no_answer
    | [] => no_answer
    end in
  match PySeq.setitem (candidate_answers c) question_index answer with
  | Some answers =>
      (with_answers c answers,
       match audio_data with
       | _ :: _ => if interview_in_progress c then [PrintAnswer answer] else []
       | [] => []
       end)
  | None => (c, [])
  end.

Definition record_audio (c : conductor) (question_index : Z)
           (attempts : list listen) : conductor * list event :=
  finish_recording (with_stop_recording c false) question_index
                   (capture attempts).

(** [stop_interview] *)
Definition stop_interview (c : conductor) : conductor * list event :=
  if interview_in_progress c then
    let c := with_stop_recording (with_in_progress c false) true in
    let c :=
      if use_intrusion_detection c
      then with_detector c (fst (Detector.stop_monitoring (intrusion_detector c)))
      else c in
    (c, [Speak InterviewStopped])
  else (c, []).

(** Lines 434-441 and 456: the request that [generate_feedback] sends. *)
Definition feedback_request (c : conductor) : event :=
  AskFeedback
    (map (fun qa => (fst qa, if PyStr.nonempty (snd qa) then snd qa
                             else "[No answer provided]"%string))
         (combine (interview_questions c) (candidate_answers c)))
    (if use_intrusion_detection c
     then Some (Detector.status_intrusion_count
                  (Detector.get_intrusion_status (intrusion_detector c)))
     else None).

(** [generate_feedback]; [feedback] is what [call_ollama] returns. *)
Definition generate_feedback (c : conductor) (feedback : option string)
  : list event :=
  feedback_request c ::
  match feedback with
  | Some (String _ _ as text) => [PrintFeedback text; Speak FeedbackReady]
  | _ => [PrintFeedbackError]
  end.

(** [end_interview] *)
Definition end_interview (c : conductor) (feedback : option string)
  : conductor * list event :=
  let c := with_in_progress c false in
  let intrusion_status :=
    Detector.get_intrusion_status (intrusion_detector c) in
  let c :=
    if use_intrusion_detection c
    then with_detector c (fst (Detector.stop_monitoring (intrusion_detector c)))
    else c in
  if Z.of_nat (List.length (interview_questions c)) <=? current_question_index c
  then
    (c, [Speak InterviewComplete;
         PrintSummary (combine (interview_questions c) (candidate_answers c))]
        ++ (if use_intrusion_detection c
            then [PrintIntrusionReport
                    (Detector.status_intrusion_count intrusion_status)]
            else [])
        ++ generate_feedback c feedback)
  else (c, [Speak TerminatedEarly]).

(** How a request to stop reaches the conductor during an answer window:
    [stop_interview] called from another thread, before or after the
    recording thread has written the answer, or Ctrl-C in the main thread
    while it waits for the timer, which [main] answers with
    [stop_interview]. *)
Inductive cancel_point : Set :=
| NotCancelled
| StoppedBeforeAnswer
| StoppedAfterAnswer
| KeyboardInterrupt.

(** What happens around the conductor during one answer window. *)
Record window_env : Set := mkWindow {
  win_attempts : list listen;              (* the capture loop *)
  win_cancel : cancel_point;
  win_clock : nat -> PyFloat.float;        (* the monitoring thread's clock *)
  win_frames : list Detector.frame_env;    (* and the frames it sees *)
  win_now : PyFloat.float                  (* [time.time()] at line 381 *)
}.

(** The monitoring thread during a window. *)
Definition watch (c : conductor) (env : window_env) : conductor :=
  with_detector c
    (Detector.loop_detector
       (Detector.monitor_frames (win_clock env)
          (Detector.mkLoop (intrusion_detector c) 0 []) (win_frames env))).

(** Lines 358-368.  The concurrent activities of a window are taken in this
    order: the monitoring thread, then the recording thread and the request
    to stop in the order [win_cancel] says. *)
Definition answer_window (c : conductor) (env : window_env)
  : conductor * list event :=
  let question_index := current_question_index c in
  let c := with_stop_recording (watch c env) false in
  let audio_data := capture (win_attempts env) in
  match win_cancel env with
  | NotCancelled => finish_recording c question_index audio_data
  | StoppedAfterAnswer =>
      let '(c, e1) := finish_recording c question_index audio_data in
      let '(c, e2) := stop_interview c in
      (c, e1 ++ e2)
  | StoppedBeforeAnswer | KeyboardInterrupt =>
      let '(c, e1) := stop_interview c in
      let '(c, e2) := finish_recording c question_index audio_data in
      (c, e1 ++ e2)
  end.

(** Lines 371-375. *)
Definition intrusion_alert (c : conductor) : list event :=
  if use_intrusion_detection c
     && (0 <? Detector.intrusion_count (intrusion_detector c))
  then
    let intrusion_status :=
      Detector.get_intrusion_status (intrusion_detector c) in
    if 0 <? Detector.status_intrusion_count intrusion_status
    then [PlaySound "intrusion";
          Speak (IntrusionWarning
                   (Detector.status_intrusion_count intrusion_status))]
    else []
  else [].

(** Lines 381-382; [interview_duration] is converted to a double, which
    raises OverflowError from 2^1024 on. *)
Definition remaining_minutes (c : conductor) (start_time now : PyFloat.float)
  : PyFloat.result :=
  let elapsed_minutes := PyFloat.div_int (PyFloat.sub now start_time) 60 in
  match PyFloat.of_int (interview_duration c) with
  | PyFloat.Finite duration =>
      PyFloat.Finite (PyFloat.sub duration elapsed_minutes)
  | error => error
  end.

(** Lines 385-388. *)
Definition skip_ahead (c : conductor) (remaining : PyFloat.float)
  : conductor * list event :=
  let n := Z.of_nat (List.length (interview_questions c)) in
  if PyFloat.ltb remaining (2 * PyFloat.one)
     && (current_question_index c <? n - 1)
  then
    let skipped := n - current_question_index c - 1 in
    (with_index c (n - 1), [Speak (SkipNotice skipped)])
  else (c, []).

(** Lines 378-393; no events when the conversion raises. *)
Definition advance (c : conductor) (start_time now : PyFloat.float)
  : conductor * option (list event) :=
  let c := with_index c (current_question_index c + 1) in
  match remaining_minutes c start_time now with
  | PyFloat.Finite remaining =>
      let '(c, skipping) := skip_ahead c remaining in
      let thanks :=
        if current_question_index c
           <? Z.of_nat (List.length (interview_questions c))
        then ThanksNext else ThanksAll in
      (c, Some (skipping ++ [Speak thanks]))
  | _ => (c, None)
  end.

(** How [start_interview] ends. *)
Inductive outcome : Set :=
| Returned (c : conductor) (trace : list event)
| Raised (c : conductor) (trace : list event)
| Interrupted (c : conductor) (trace : list event)
| OutOfFuel.

(** The loop of lines 352-393 followed by [end_interview]; [envs k] is the
    environment of the k-th window. *)
Fixpoint question_loop (fuel : nat) (envs : nat -> window_env) (k : nat)
         (start_time : PyFloat.float) (feedback : option string)
         (c : conductor) (trace : list event) : outcome :=
  if (current_question_index c
      <? Z.of_nat (List.length (interview_questions c)))
     && interview_in_progress c
  then
    match fuel with
    | O => OutOfFuel
    | S fuel =>
        match PySeq.getitem (interview_questions c)
                            (current_question_index c) with
        | None => Raised c trace
        | Some question =>
            let asked :=
              Speak (AskQuestion (current_question_index c + 1) question) in
            let '(c, heard) := answer_window c (envs k) in
            match win_cancel (envs k) with
            | KeyboardInterrupt =>
                Interrupted c (trace ++ asked :: heard)
            | _ =>
                let c := with_stop_recording c true in
                let alert := intrusion_alert c in
                match advance c start_time (win_now (envs k)) with
                | (c, None) => Raised c (trace ++ asked :: heard ++ alert)
                | (c, Some moved) =>
                    question_loop fuel envs (S k) start_time feedback c
                      (trace ++ asked :: heard ++ alert ++ moved)
                end
            end
        end
    end
  else
    let '(c, ended) := end_interview c feedback in
    Returned c (trace ++ ended).

(** What happens around the conductor during a session. *)
Record session_env : Set := mkSession {
  ses_opens : bool;                   (* the camera, for the monitoring thread *)
  ses_start_time : PyFloat.float;     (* [time.time()] at line 350 *)
  ses_windows : nat -> window_env;
  ses_feedback : option string        (* [call_ollama] in [generate_feedback] *)
}.

(** Lines 331-338: the flags, and the monitoring thread started. *)
Definition arm (c : conductor) (opens : bool) : conductor :=
  let c := with_index (with_in_progress c true) 0 in
  if use_intrusion_detection c then
    let d := intrusion_detector c in
    let '(d', ok) := Detector.start_monitoring d in
    if ok then
      with_detector c
        (if Detector.monitoring d then d'
         else Detector.loop_detector
                (Detector.monitor_loop (fun _ => 0) d' opens 0 []))
    else with_detection (with_detector c d') false
  else c.

(** [start_interview] *)
Definition start_interview (c : conductor) (env : session_env) : outcome :=
  let c := arm c (ses_opens env) in
  let greeting :=
    [Speak Welcome;
     Speak (RoleInfo (job_role c) (interview_duration c));
     Speak (AnswerTimeInfo (answer_time c));
     Speak (QuestionTotal (Z.of_nat (List.length (interview_questions c))))]
    ++ (if use_intrusion_detection c then [Speak DetectionNotice] else [])
    ++ [Speak LetsBegin] in
  question_loop (List.length (interview_questions c)) (ses_windows env) 0
                (ses_start_time env) (ses_feedback env) c greeting.

(** What is typed and answered during [setup_interview].  An entry [None]
    of the typed numbers is one that [int] rejects. *)
Record setup_env : Set := mkSetup {
  typed_role : string;
  tech_roles : list string;                 (* tech.txt *)
  non_tech_roles : list string;             (* non-tech.txt *)
  typed_durations : list (option Z);
  typed_answer_times : list (option Z);
  typed_detection : list string;
  setup_capture : Detector.capture_env;
  questions_response : option string        (* [call_ollama] *)
}.

(** The loops of lines 92-110: the first positive entry. *)
Fixpoint read_positive (entries : list (option Z)) : option Z :=
  match entries with
  | [] => None
  | Some n :: rest => if n <=? 0 then read_positive rest else Some n
  | None :: rest => read_positive rest
  end.

(** The loop of lines 113-122. *)
Fixpoint read_choice (entries : list string) : option bool :=
  match entries with
  | [] => None
  | entry :: rest =>
      let response := PyStr.lower entry in
      if existsb (String.eqb response) ["y"; "yes"]%string then Some true
      else if existsb (String.eqb response) ["n"; "no"]%string then Some false
      else read_choice rest
  end.

(** [is_technical_role] and [is_non_technical_role] *)
Definition role_among (roles : list string) (role : string) : bool :=
  existsb (fun r => PyStr.contains (PyStr.lower role) (PyStr.lower r)) roles.

(** [setup_interview] up to line 150; [None] when the input ends or the
    division of line 140 raises. *)
Definition configure (c : conductor) (env : setup_env)
  : option (conductor * list event) :=
  let job_role := typed_role env in
  let is_tech_role := role_among (tech_roles env) job_role in
  match read_positive (typed_durations env) with
  | None => None
  | Some interview_duration =>
      match read_positive (typed_answer_times env) with
      | None => None
      | Some answer_time =>
          match read_choice (typed_detection env) with
          | None => None
          | Some wanted =>
              let '(d, captured) :=
                if wanted
                then Detector.capture_reference_face (intrusion_detector c)
                                                     (setup_capture env)
                else (intrusion_detector c, false) in
              match question_count interview_duration answer_time with
              | None => None
              | Some n =>
                  Some (generate_questions
                          (mkConductor job_role interview_duration answer_time
                             n (interview_questions c) (candidate_answers c)
                             (current_question_index c)
                             (interview_in_progress c) (stop_recording c)
                             is_tech_role d (wanted && captured))
                          (questions_response env))
              end
          end
      end
  end.

(** [setup_interview], and with it [main] up to its idle loop: a session
    that Ctrl-C interrupts has been answered by [stop_interview]. *)
Definition setup_interview (setup : setup_env) (session : session_env)
  : outcome :=
  match configure init setup with
  | None => Raised init []
  | Some (c, printed) =>
      match start_interview c session with
      | Returned c trace => Returned c (printed ++ trace)
      | Raised c trace => Raised c (printed ++ trace)
      | Interrupted c trace => Interrupted c (printed ++ trace)
      | OutOfFuel => OutOfFuel
      end
  end.

(** What the window of a question leaves as it is: the questions, the
    position, and the configuration. *)
Definition same_script (c c' : conductor) : Prop :=
  interview_questions c' = interview_questions c /\
  current_question_index c' = current_question_index c /\
  num_questions c' = num_questions c /\
  List.length (candidate_answers c') = List.length (candidate_answers c) /\
  use_intrusion_detection c' = use_intrusion_detection c /\
  interview_duration c' = interview_duration c.

(** The number of times that questions were announced as skipped. *)
Definition skip_notices (trace : list event) : nat :=
  List.length
    (filter (fun e => match e with Speak (SkipNotice _) => true | _ => false end)
            trace).

(** Whether a summary was printed, and whether feedback was requested. *)
Definition is_report (e : event) : bool :=
  match e with
  | PrintSummary _ | AskFeedback _ _ => true
  | _ => false
  end.


(** The condition of the loop of [start_interview], line 352. *)
Definition asking (c : conductor) : bool :=
  (current_question_index c
   <? Z.of_nat (List.length (interview_questions c)))
  && interview_in_progress c.

(** The two lists have the planned length. *)
Definition planned (c : conductor) : Prop :=
  Z.of_nat (List.length (interview_questions c)) = num_questions c /\
  Z.of_nat (List.length (candidate_answers c)) = num_questions c.

(** The operations on a conductor after its plan was made, in any order. *)
Inductive after_plan (c0 : conductor) : conductor -> Prop :=
| plan_made : after_plan c0 c0
| plan_arm c opens : after_plan c0 c -> after_plan c0 (arm c opens)
| plan_watch c env : after_plan c0 c -> after_plan c0 (watch c env)
| plan_record c i attempts :
    after_plan c0 c -> after_plan c0 (fst (record_audio c i attempts))
| plan_window c env :
    after_plan c0 c -> after_plan c0 (fst (answer_window c env))
| plan_advance c start_time now :
    after_plan c0 c -> after_plan c0 (fst (advance c start_time now))
| plan_flag c b : after_plan c0 c -> after_plan c0 (with_stop_recording c b)
| plan_stop c : after_plan c0 c -> after_plan c0 (fst (stop_interview c))
| plan_end c feedback :
    after_plan c0 c -> after_plan c0 (fst (end_interview c feedback)).

(** The state in which a session ends, if it does. *)
Definition final_state (o : outcome) : option conductor :=
  match o with
  | Returned c _ | Raised c _ | Interrupted c _ => Some c
  | OutOfFuel => None
  end.

Definition final_trace (o : outcome) : list event :=
  match o with
  | Returned _ t | Raised _ t | Interrupted _ t => t
  | OutOfFuel => []
  end.

End Conductor.

(** *** Sample inputs *)

Module Samples.
Import Detector.

(** A face at the right edge of a 640 x 480 frame. *)
Definition edge_frame : image := repeat (repeat 0 640%nat) 480%nat.
Definition edge_env : capture_env :=
  {| cap_opens := true; cap_frame := Some edge_frame;
     cap_faces := [(600, 100, 30, 30)] |}.

(** Ten pixels of which three, respectively four, differ by more than 30. *)
Definition ref10 : image := [[100; 100; 100; 100; 100]; [100; 100; 100; 100; 100]].
Definition roi10_3 : image := [[100; 131; 100; 100; 69]; [100; 100; 200; 100; 130]].
Definition roi10_4 : image := [[100; 131; 100; 100; 69]; [100; 100; 200; 100; 131]].

(** A camera that delivers [ref10] with a face filling it, the detector that
    watches it after capture and start, and a clock that advances by 3 or 4
    seconds per reading. *)
Definition small_env : capture_env :=
  {| cap_opens := true; cap_frame := Some ref10; cap_faces := [(0, 0, 5, 2)] |}.
Definition watching : detector :=
  fst (start_monitoring (fst (capture_reference_face init small_env))).
Definition intruded : frame_env :=
  {| frame_read := Some roi10_4; frame_resized := [] |}.
Definition slow_clock (k : nat) : PyFloat.float :=
  (1700000000 + 7 * Z.of_nat k / 2) * PyFloat.one.

(** An engineer's interview with two questions planned, a response of the
    language model without a usable line and one that lists the first two
    questions of the bank. *)
Definition engineer : Conductor.conductor :=
  Conductor.mkConductor "Engineer" 1 15 2 [] [] 0 false false false
                        Detector.init false.
Definition preamble_only : string := "Here are your questions:".
Definition planned_engineer : Conductor.conductor :=
  fst (Conductor.generate_questions engineer (Some preamble_only)).
Definition t0 : PyFloat.float := 1700000000 * PyFloat.one.
(** One minute, 15 seconds per answer, no intrusion detection, and a
    language model that returns no usable line. *)
Definition short_setup : Conductor.setup_env :=
  {| Conductor.typed_role := "Engineer";
     Conductor.tech_roles := ["developer"%string];
     Conductor.non_tech_roles := ["engineer"%string];
     Conductor.typed_durations := [None; Some 0; Some 1];
     Conductor.typed_answer_times := [Some 15];
     Conductor.typed_detection := ["maybe"; "N"]%string;
     Conductor.setup_capture := edge_env;
     Conductor.questions_response := Some preamble_only |}.
Definition good_morning : list Conductor.listen :=
  [ Conductor.Heard (Conductor.Recognised "good");
    Conductor.WaitTimeoutError;
    Conductor.Heard Conductor.UnknownValueError;
    Conductor.Heard (Conductor.Recognised "morning") ].

(** Windows in which "good morning" is answered, 20 seconds after the start,
    and a session that is stopped from another thread in its first window,
    respectively in its second and last one. *)
Definition t0_plus_20s : PyFloat.float := 1700000020 * PyFloat.one.
Definition window (cancel : Conductor.cancel_point) : Conductor.window_env :=
  Conductor.mkWindow good_morning cancel slow_clock [] t0_plus_20s.
Definition stopped_at_last : Conductor.session_env :=
  Conductor.mkSession true t0
    (fun k => match k with
              | O => window Conductor.NotCancelled
              | S _ => window Conductor.StoppedAfterAnswer
              end)
    (Some "Well done."%string).

End Samples.

(** *** Shapes of frames and regions *)

Module Geometry.
Import Detector.

(** The area of a detected face, line 78. *)
Definition area (f : face) : Z := let '(_, _, w, h) := f in w * h.

(** A frame of [H] rows of [W] pixels. *)
Definition rectangular (W H : Z) (img : image) : Prop :=
  shape0 img = H /\ Forall (fun row => Z.of_nat (List.length row) = W) img.

Definition apart (a b : image) : Prop :=
  Forall2 (Forall2 (fun p q => 30 < Z.abs (p - q))) a b.

End Geometry.

(** *** Predicates on text *)

Module Text.
Import PyStr.



End Text.

(** *** What a session asks *)

Module Script.
Import Conductor.

(** The questions that a trace asks, with their numbers, in order. *)
Fixpoint asked_questions (trace : list event) : list (Z * string) :=
  match trace with
  | Speak (AskQuestion number question) :: rest =>
      (number, question) :: asked_questions rest
  | _ :: rest => asked_questions rest
  | [] => []
  end.

(** Numbers that increase strictly, starting above [lo]. *)
Fixpoint ascending (lo : Z) (numbers : list Z) : Prop :=
  match numbers with
  | [] => True
  | n :: rest => lo < n /\ ascending n rest
  end.


(** The questions asked so far, for a session at position [i]. *)
Definition asked_so_far (questions : list string) (i : Z)
           (asked : list (Z * string)) : Prop :=
  ascending 0 (map fst asked) /\
  Forall (fun kq => 1 <= fst kq <= i /\
                    fst kq <= Z.of_nat (List.length questions) /\
                    nth_error questions (Z.to_nat (fst kq - 1)) = Some (snd kq))
         asked.

End Script.

(** *** The answer timer ([timer_countdown]) *)

Module Timer.
Import PyFloat.

(** The literal [0.2]: 0x1.999999999999ap-3. *)
Definition lit_0_2 : float := 3602879701896397 * 2 ^ (unit_exp - 54).

(** [x * y] for doubles: the correctly rounded product; a value of
    magnitude [huge] or more stands for an infinity. *)
Definition mul (x y : float) : float := round_ratio (x * y) one.

(** Line 274: [max(5, int(seconds * 0.2))]; [None] is the OverflowError of
    [float(seconds)] or of [int] applied to an infinity. *)
Definition warning_threshold (seconds : Z) : option Z :=
  match of_int seconds with
  | Finite x =>
      let product := mul x lit_0_2 in
      if huge <=? Z.abs product then None
      else Some (Z.max 5 (to_int product))
  | _ => None
  end.








End Timer.

(** *** More sample inputs *)

Module Cases.
Import Detector Samples.


Definition ref4 : image := [[0; 0]; [0; 0]].
Definition roi4_far : image := [[31; 40]; [255; 100]].


Definition watched_setup : Conductor.setup_env :=
  {| Conductor.typed_role := "Engineer";
     Conductor.tech_roles := ["engineer"%string];
     Conductor.non_tech_roles := [];
     Conductor.typed_durations := [Some 1];
     Conductor.typed_answer_times := [Some 15];
     Conductor.typed_detection := ["Yes"%string];
     Conductor.setup_capture := small_env;
     Conductor.questions_response := None |}.
Definition after_watched_setup : Conductor.conductor * list Conductor.event :=
  match Conductor.configure Conductor.init watched_setup with
  | Some r => r
  | None => (Conductor.init, [])
  end.



End Cases.

(* ================================================================= *)
(** ** Properties *)
(* ================================================================= *)

(** *** Rounding *)

Section Rounding.
Import PyFloat.

Lemma rne_half_up (num den : Z) :
  0 < den -> 2 * (rne num den * den) <= 2 * num + den.
Proof.
  intros Hd. unfold rne.
  pose proof (Z.div_mod num den ltac:(lia)) as E.
  pose proof (Z.mod_pos_bound num den Hd) as B.
  destruct (Z.ltb_spec (2 * (num mod den)) den);
    [nia | destruct (Z.ltb_spec den (2 * (num mod den)));
           [nia | destruct (Z.even (num / den)); nia]].
Qed.

Lemma rne_half_down (num den : Z) :
  0 < den -> 2 * num - den <= 2 * (rne num den * den).
Proof.
  intros Hd. unfold rne.
  pose proof (Z.div_mod num den ltac:(lia)) as E.
  pose proof (Z.mod_pos_bound num den Hd) as B.
  destruct (Z.ltb_spec (2 * (num mod den)) den);
    [nia | destruct (Z.ltb_spec den (2 * (num mod den)));
           [nia | destruct (Z.even (num / den)); nia]].
Qed.

Lemma rne_nonneg (num den : Z) : 0 <= num -> 0 < den -> 0 <= rne num den.
Proof.
  intros Hn Hd. pose proof (rne_half_down num den Hd). nia.
Qed.

Lemma ulp_shift_nonneg (num den : Z) : 0 <= ulp_shift num den.
Proof. unfold ulp_shift. lia. Qed.

Lemma div_lt_pow2_succ_log2 (q : Z) : 0 <= q -> q < 2 ^ (Z.log2 q + 1).
Proof.
  intros Hq. destruct (Z.eq_dec q 0) as [->|Hn].
  - reflexivity.
  - pose proof (Z.log2_spec q ltac:(lia)) as [_ H].
    now rewrite <- Z.add_1_r in H.
Qed.

(** The scaled quotient has at most 53 bits. *)
Lemma ratio_below (a d : Z) :
  0 <= a -> 0 < d -> a < d * 2 ^ ulp_shift a d * 2 ^ 53.
Proof.
  intros Ha Hd.
  assert (Hq : 0 <= a / d) by (apply Z.div_pos; lia).
  pose proof (div_lt_pow2_succ_log2 (a / d) Hq) as Hlt.
  pose proof (Z.log2_nonneg (a / d)) as Hl.
  pose proof (ulp_shift_nonneg a d) as Ht.
  assert (Hle : 2 ^ (Z.log2 (a / d) + 1) <= 2 ^ ulp_shift a d * 2 ^ 53)
    by (rewrite <- Z.pow_add_r by lia;
        apply Z.pow_le_mono_r; unfold ulp_shift; lia).
  pose proof (Z.div_mod a d ltac:(lia)) as E.
  pose proof (Z.mod_pos_bound a d Hd) as B.
  apply Z.lt_le_trans with (d * 2 ^ (Z.log2 (a / d) + 1)).
  - nia.
  - rewrite <- Z.mul_assoc. apply Z.mul_le_mono_nonneg_l; lia.
Qed.

(** Above the subnormal range the scaled quotient has exactly 53 bits. *)
Lemma ratio_above (a d : Z) :
  0 <= a -> 0 < d -> 0 < ulp_shift a d ->
  d * 2 ^ ulp_shift a d * 2 ^ 52 <= a.
Proof.
  intros Ha Hd Ht. unfold ulp_shift in *.
  assert (Hl : 52 < Z.log2 (a / d)) by lia.
  assert (Hq : 0 < a / d).
  { destruct (Z.eq_dec (a / d) 0) as [E0|]; [rewrite E0 in Hl; simpl in Hl; lia|].
    pose proof (Z.div_pos a d Ha Hd). lia. }
  pose proof (Z.log2_spec (a / d) Hq) as [Hlo _].
  replace (Z.max 0 (Z.log2 (a / d) - 52)) with (Z.log2 (a / d) - 52) by lia.
  replace (d * 2 ^ (Z.log2 (a / d) - 52) * 2 ^ 52)
    with (d * (2 ^ (Z.log2 (a / d) - 52) * 2 ^ 52)) by ring.
  rewrite <- Z.pow_add_r by lia.
  replace (Z.log2 (a / d) - 52 + 52) with (Z.log2 (a / d)) by lia.
  pose proof (Z.div_mod a d ltac:(lia)) as E.
  pose proof (Z.mod_pos_bound a d Hd) as B.
  nia.
Qed.

(** A quotient below 2^(k+53) units is rounded at a spacing of at most 2^k. *)
Lemma ulp_shift_le (a d k : Z) :
  0 <= a -> 0 < d -> 0 <= k -> a < d * 2 ^ (k + 53) -> ulp_shift a d <= k.
Proof.
  intros Ha Hd Hk Hlt. unfold ulp_shift.
  assert (Hq : 0 <= a / d) by (apply Z.div_pos; lia).
  destruct (Z.eq_dec (a / d) 0) as [E0|Hn].
  - rewrite E0. simpl. lia.
  - assert (a / d < 2 ^ (k + 53))
      by (apply Z.div_lt_upper_bound; lia).
    assert (Z.log2 (a / d) < k + 53)
      by (apply Z.log2_lt_pow2; lia).
    lia.
Qed.

Lemma mantissa_le (a d : Z) :
  0 <= a -> 0 < d -> rne a (d * 2 ^ ulp_shift a d) <= 2 ^ 53.
Proof.
  intros Ha Hd.
  pose proof (ulp_shift_nonneg a d) as Ht.
  assert (Hp : 0 < 2 ^ ulp_shift a d) by (apply Z.pow_pos_nonneg; lia).
  assert (HD : 0 < d * 2 ^ ulp_shift a d) by nia.
  pose proof (rne_half_up a _ HD) as Hu.
  pose proof (ratio_below a d Ha Hd) as Hb.
  nia.
Qed.

Lemma mantissa_ge (a d : Z) :
  0 <= a -> 0 < d -> 0 < ulp_shift a d ->
  2 ^ 52 <= rne a (d * 2 ^ ulp_shift a d).
Proof.
  intros Ha Hd Ht.
  assert (Hp : 0 < 2 ^ ulp_shift a d) by (apply Z.pow_pos_nonneg; lia).
  assert (HD : 0 < d * 2 ^ ulp_shift a d) by nia.
  pose proof (rne_half_down a _ HD) as Hu.
  pose proof (ratio_above a d Ha Hd Ht) as Hb.
  nia.
Qed.

End Rounding.

(** *** The question count *)

Section QuestionCount.
Import PyFloat Conductor.

Lemma one_split (t : Z) : 0 <= t <= unit_exp -> one = 2 ^ (unit_exp - t) * 2 ^ t.
Proof.
  intros H. unfold one. rewrite <- Z.pow_add_r by lia. f_equal. lia.
Qed.

Lemma round_ratio_pos (a d : Z) :
  0 <= a -> 0 < d ->
  round_ratio a d = rne a (d * 2 ^ ulp_shift a d) * 2 ^ ulp_shift a d
  /\ 0 <= round_ratio a d.
Proof.
  intros Ha Hd. unfold round_ratio.
  rewrite (Z.abs_eq a Ha).
  pose proof (ulp_shift_nonneg a d) as Ht.
  assert (Hp : 0 < 2 ^ ulp_shift a d) by (apply Z.pow_pos_nonneg; lia).
  assert (HD : 0 < d * 2 ^ ulp_shift a d) by nia.
  pose proof (rne_half_down a _ HD) as Hlo.
  assert (Hm : 0 <= rne a (d * 2 ^ ulp_shift a d)) by nia.
  destruct (Z.eq_dec a 0) as [->|Hn].
  - pose proof (rne_half_up 0 _ HD) as Hhi.
    assert (E0 : rne 0 (d * 2 ^ ulp_shift 0 d) = 0) by nia.
    rewrite E0. cbn. lia.
  - rewrite (Z.sgn_pos a) by lia. rewrite Z.mul_1_l. split; [reflexivity|nia].
Qed.




Lemma truediv_pos (a b : Z) :
  0 <= a -> 0 < b ->
  truediv a b =
  if huge <=? round_ratio (a * one) b then OverflowError
  else Finite (round_ratio (a * one) b).
Proof.
  intros Ha Hb. unfold truediv.
  assert (Hone : 0 < one) by reflexivity.
  destruct (round_ratio_pos (a * one) b ltac:(nia) Hb) as [_ Hx].
  destruct (Z.eqb_spec b 0) as [|_]; [lia|].
  rewrite (Z.abs_eq b) by lia. rewrite (Z.sgn_pos b) by lia.
  rewrite Z.mul_1_l. rewrite (Z.abs_eq _ Hx). reflexivity.
Qed.

Lemma question_count_range (d p n : Z) :
  question_count d p = Some n -> 1 <= n <= 10.
Proof.
  unfold question_count.
  destruct (truediv (d * 60) (p + 15)); intros H; inversion H; lia.
Qed.




Example question_count_boundary : question_count 1 45 = Some 1.
Proof. vm_compute. reflexivity. Qed.

Example question_count_saturates : question_count 167 10 = Some 10.
Proof. vm_compute. reflexivity. Qed.

Example question_count_overflow : question_count (10 ^ 400) 1 = None.
Proof. vm_compute. reflexivity. Qed.

End QuestionCount.

(** *** The reference face *)

Section ReferenceFace.
Import Detector Samples.

Lemma padded_bbox_region (frame : image) (f : face) :
  region_of (shape1 frame) (shape0 frame) (padded_bbox frame f).
Proof.
  destruct f as [[[x y] w] h]. unfold region_of, padded_bbox, bbox_padding.
  repeat split; lia.
Qed.

Lemma padded_bbox_covers (frame : image) (f : face) :
  face_inside (shape1 frame) (shape0 frame) f ->
  let '(x, y, w, h) := f in
  let '(x1, y1, x2, y2) := padded_bbox frame f in
  x1 <= x /\ x + w <= x2 /\ y1 <= y /\ y + h <= y2.
Proof.
  destruct f as [[[x y] w] h]. unfold face_inside, padded_bbox, bbox_padding.
  intros H. repeat split; lia.
Qed.

Lemma select_face_In (faces : list face) (f : face) :
  select_face faces = Some f -> In f faces.
Proof.
  destruct faces as [|f0 [|f1 rest]]; simpl.
  - discriminate.
  - intros H. inversion H. now left.
  - apply nth_error_In.
Qed.

Lemma capture_success (d d' : detector) (env : capture_env) :
  capture_reference_face d env = (d', true) ->
  exists frame f,
    cap_frame env = Some frame /\ select_face (cap_faces env) = Some f /\
    face_bbox d' = Some (padded_bbox frame f) /\
    reference_face d' <> None.
Proof.
  unfold capture_reference_face, start_camera.
  destruct (camera_opened d); [|destruct (cap_opens env)]; simpl;
    try (intros H; discriminate H);
    (destruct (cap_frame env) as [frame|]; [|intros H; discriminate H]);
    (destruct (select_face (cap_faces env)) as [f|]; [|intros H; discriminate H]);
    destruct (padded_bbox frame f) as [[[x1 y1] x2] y2] eqn:E;
    intros H; inversion H; subst; clear H;
    exists frame, f; simpl; repeat split;
    try (rewrite E; reflexivity); discriminate.
Qed.

(** C6, as amended.  After a successful [capture_reference_face] the stored
    box [(x1, y1, x2, y2)] is a region of the captured frame:
    [0 <= x1], [0 <= y1], [x2 <= frameWidth], [y2 <= frameHeight], the far
    corner being an exclusive slice bound; and it covers the selected face
    whenever the detected faces lie inside the frame. *)
Theorem reference_bbox_in_frame (d d' : detector) (env : capture_env) :
  capture_reference_face d env = (d', true) ->
  exists frame box,
    cap_frame env = Some frame /\ face_bbox d' = Some box /\
    region_of (shape1 frame) (shape0 frame) box /\
    (Forall (face_inside (shape1 frame) (shape0 frame)) (cap_faces env) ->
     let '(x1, y1, x2, y2) := box in x1 < x2 /\ y1 < y2).
Proof.
  intros H. destruct (capture_success d d' env H) as (frame & f & Hf & Hs & Hb & _).
  exists frame, (padded_bbox frame f). repeat split; try assumption.
  - apply padded_bbox_region.
  - intros Hall. rewrite Forall_forall in Hall.
    specialize (Hall f (select_face_In _ _ Hs)).
    pose proof (padded_bbox_covers frame f Hall) as Hc.
    destruct f as [[[x y] w] h].
    destruct (padded_bbox frame (x, y, w, h)) as [[[x1 y1] x2] y2].
    unfold face_inside in Hall. lia.
Qed.

Lemma reference_bbox_in_frame_witness :
  exists frame box,
    cap_frame edge_env = Some frame /\
    face_bbox (fst (capture_reference_face init edge_env)) = Some box /\
    region_of (shape1 frame) (shape0 frame) box.
Proof.
  destruct (reference_bbox_in_frame init
              (fst (capture_reference_face init edge_env)) edge_env
              ltac:(reflexivity))
    as (frame & box & Hf & Hb & Hr & _).
  exists frame, box. repeat split; assumption.
Defined.

(** C6 as stated fails: for the face (600, 100, 30, 30) in a 640 x 480 frame
    the stored box is (580, 80, 640, 150), and 640 is not below the width. *)
Lemma reference_bbox_touches_edge :
  exists d,
    capture_reference_face init edge_env = (d, true) /\
    face_bbox d = Some (580, 80, 640, 150) /\
    shape1 edge_frame = 640 /\ shape0 edge_frame = 480 /\
    ~ strictly_within (shape1 edge_frame) (shape0 edge_frame) (580, 80, 640, 150).
Proof.
  eexists. split; [vm_compute; reflexivity|].
  repeat split; try (vm_compute; reflexivity).
  unfold strictly_within. vm_compute. intros (_ & _ & H & _). discriminate H.
Qed.

End ReferenceFace.

(** *** The difference threshold *)

Section Threshold.
Import PyFloat Detector Samples.

Lemma count_positive_nonneg (img : image) : 0 <= count_positive img.
Proof.
  induction img as [|row img IH]; simpl; lia.
Qed.

(** A quotient of at most 3/10 rounds to at most the double [0.3]. *)
Lemma round_ratio_le_0_3 (c n : Z) :
  0 <= c -> 0 < n -> 10 * c <= 3 * n ->
  round_ratio (c * one) n <= lit_0_3.
Proof.
  intros Hc Hn Hle.
  assert (Hone : 0 < one) by reflexivity.
  assert (HA : 0 <= c * one) by nia.
  destruct (round_ratio_pos (c * one) n HA Hn) as [-> _].
  set (t := ulp_shift (c * one) n).
  assert (Ht0 : 0 <= t) by apply ulp_shift_nonneg.
  assert (Ht : t <= 1020).
  { apply ulp_shift_le; try lia.
    assert (E : 2 * 2 ^ (1020 + 53) = one) by reflexivity.
    assert (0 < 2 ^ (1020 + 53)) by reflexivity. nia. }
  assert (HT : 0 < 2 ^ t) by (apply Z.pow_pos_nonneg; lia).
  assert (HD : 0 < n * 2 ^ t) by nia.
  pose proof (rne_nonneg (c * one) _ HA HD) as Hm0.
  destruct (Z.eq_dec t 1020) as [E|Hne].
  - pose proof (rne_half_up (c * one) _ HD) as Hup.
    rewrite E in *.
    assert (E1 : one = 2 ^ 54 * 2 ^ 1020) by reflexivity.
    assert (E2 : lit_0_3 = 5404319552844595 * 2 ^ 1020) by reflexivity.
    rewrite E2. rewrite E1 in Hup |- *.
    set (T := 2 ^ 1020) in *. set (m := rne (c * (2 ^ 54 * T)) (n * T)) in *.
    change (2 ^ 54) with 18014398509481984 in Hup.
    assert (Hup' : 2 * (m * n) <= 2 * (c * 18014398509481984) + n) by nia.
    assert (m <= 5404319552844595) by nia.
    nia.
  - pose proof (mantissa_le (c * one) n HA Hn) as Hm. fold t in Hm.
    assert (HT' : 2 ^ t <= 2 ^ 1019) by (apply Z.pow_le_mono_r; lia).
    assert (E2 : lit_0_3 = 5404319552844595 * 2 * 2 ^ 1019) by reflexivity.
    rewrite E2.
    assert (0 < 2 ^ 1019) by reflexivity.
    set (T := 2 ^ t) in *. set (m := rne (c * one) (n * T)) in *.
    change (2 ^ 53) with 9007199254740992 in Hm.
    assert (m * T <= 9007199254740992 * 2 ^ 1019)
      by (apply Z.mul_le_mono_nonneg; lia).
    lia.
Qed.

(** Below 2^51 pixels a quotient above 3/10 rounds above the double [0.3]. *)
Lemma round_ratio_gt_0_3 (c n : Z) :
  0 < n < 2 ^ 51 -> 0 <= c <= n -> 3 * n < 10 * c ->
  lit_0_3 < round_ratio (c * one) n < huge.
Proof.
  intros Hn Hc Hgt.
  assert (Hone : 0 < one) by reflexivity.
  assert (HA : 0 <= c * one) by nia.
  destruct (round_ratio_pos (c * one) n HA ltac:(lia)) as [-> _].
  set (t := ulp_shift (c * one) n).
  assert (Ht0 : 0 <= t) by apply ulp_shift_nonneg.
  assert (Ht : t <= 1022).
  { apply ulp_shift_le; try lia.
    assert (E : 2 ^ (1022 + 53) = 2 * one) by reflexivity. rewrite E. nia. }
  assert (HT : 0 < 2 ^ t) by (apply Z.pow_pos_nonneg; lia).
  assert (HD : 0 < n * 2 ^ t) by nia.
  pose proof (rne_nonneg (c * one) _ HA HD) as Hm0.
  pose proof (mantissa_le (c * one) n HA ltac:(lia)) as Hm. fold t in Hm.
  split.
  - destruct (Z_le_gt_dec t 1020) as [Hle|Hbig].
    + assert (E1 : one = 2 ^ 54 * 2 ^ (1020 - t) * 2 ^ t).
      { unfold one, unit_exp. rewrite <- !Z.pow_add_r by lia. f_equal. lia. }
      assert (E2 : lit_0_3 = 5404319552844595 * 2 ^ (1020 - t) * 2 ^ t).
      { unfold lit_0_3, unit_exp. rewrite <- Z.mul_assoc, <- Z.pow_add_r by lia.
        do 2 f_equal. lia. }
      assert (HV : 1 <= 2 ^ (1020 - t))
        by (change 1 with (2 ^ 0); apply Z.pow_le_mono_r; lia).
      pose proof (rne_half_down (c * one) _ HD) as Hdn.
      rewrite E2. rewrite E1 in Hdn |- *.
      set (T := 2 ^ t) in *. set (V := 2 ^ (1020 - t)) in *.
      set (m := rne (c * (2 ^ 54 * V * T)) (n * T)) in *.
      change (2 ^ 54) with 18014398509481984 in *.
      change (2 ^ 51) with 2251799813685248 in Hn.
      assert (Hdn' : 2 * (c * (18014398509481984 * V)) - n <= 2 * (m * n)) by nia.
      assert (Hm' : 5404319552844595 * V < m).
      { destruct (Z_lt_le_dec (5404319552844595 * V) m) as [|Hbad];
          [assumption|exfalso].
        assert (2 * (m * n) <= 2 * (5404319552844595 * V * n)) by nia.
        assert (10 * (c * V) >= (3 * n + 1) * V) by nia.
        nia. }
      nia.
    + pose proof (mantissa_ge (c * one) n HA ltac:(lia) ltac:(fold t; lia)) as Hge.
      fold t in Hge.
      assert (HT' : 2 ^ 1021 <= 2 ^ t) by (apply Z.pow_le_mono_r; lia).
      assert (E2 : lit_0_3 = 5404319552844595 * 2 ^ 1020) by reflexivity.
      assert (E3 : 2 ^ 1021 = 2 * 2 ^ 1020) by reflexivity.
      assert (0 < 2 ^ 1020) by reflexivity.
      rewrite E2. rewrite E3 in HT'.
      set (T := 2 ^ t) in *. set (m := rne (c * one) (n * T)) in *.
      change (2 ^ 52) with 4503599627370496 in Hge. nia.
  - assert (HT' : 2 ^ t <= 2 ^ 1022) by (apply Z.pow_le_mono_r; lia).
    assert (E : huge = 2 ^ 1023 * (2 ^ 53 * 2 ^ 1022)) by reflexivity.
    assert (0 < 2 ^ 53 * 2 ^ 1022) by reflexivity.
    assert (2 <= 2 ^ 1023) by discriminate.
    rewrite E.
    set (T := 2 ^ t) in *. set (m := rne (c * one) (n * T)) in *.
    assert (m * T <= 2 ^ 53 * 2 ^ 1022)
      by (apply Z.mul_le_mono_nonneg; lia).
    nia.
Qed.

Lemma effective_fraction (reference roi : image) :
  match diff_percentage reference roi with
  | Finite p => gtb p intrusion_threshold
  | _ => false
  end = true ->
  3 * total_pixels reference roi < 10 * differing_pixels reference roi.
Proof.
  unfold diff_percentage, total_pixels, differing_pixels.
  set (th := threshold_binary 30 255 (absdiff reference roi)).
  pose proof (count_positive_nonneg th) as Hc.
  assert (Hn : 0 <= shape0 th * shape1 th) by (unfold shape0, shape1; nia).
  destruct (Z.eq_dec (shape0 th * shape1 th) 0) as [E|Hne].
  - rewrite E. unfold truediv. simpl. discriminate.
  - rewrite truediv_pos by lia.
    destruct (Z.leb_spec huge (round_ratio (count_positive th * one)
                                           (shape0 th * shape1 th)));
      [discriminate|].
    cbv beta iota. unfold gtb, intrusion_threshold. intros Hgt.
    apply Z.ltb_lt in Hgt.
    destruct (Z_lt_le_dec (3 * (shape0 th * shape1 th))
                          (10 * count_positive th)) as [|Hle]; [assumption|].
    assert (Hpos : 0 < shape0 th * shape1 th) by lia.
    pose proof (round_ratio_le_0_3 _ _ Hc Hpos Hle). lia.
Qed.

(** C7.  With [c] differing pixels out of [n], a frame whose fraction [c / n]
    is exactly 3/10 does not signal an intrusion, and an intrusion is
    signalled only when [c / n] exceeds 3/10 strictly.  This holds for the
    binary64 comparison [c / n > 0.3] as the program evaluates it. *)
Theorem intrusion_threshold_strict (reference roi resized : image) :
  let c := differing_pixels reference (compared reference roi resized) in
  let n := total_pixels reference (compared reference roi resized) in
  (10 * c = 3 * n -> check_intrusion reference roi resized = false) /\
  (check_intrusion reference roi resized = true -> 3 * n < 10 * c).
Proof.
  intros c n.
  assert (H : check_intrusion reference roi resized = true -> 3 * n < 10 * c).
  { unfold check_intrusion. apply effective_fraction. }
  split; [|exact H].
  intros E. destruct (check_intrusion reference roi resized); [|reflexivity].
  specialize (H eq_refl). lia.
Qed.

(** Conversely, for regions of fewer than 2^51 pixels every fraction above
    3/10 is signalled. *)
Lemma intrusion_signalled_above (reference roi resized : image) :
  let c := differing_pixels reference (compared reference roi resized) in
  let n := total_pixels reference (compared reference roi resized) in
  n < 2 ^ 51 -> c <= n -> 3 * n < 10 * c ->
  check_intrusion reference roi resized = true.
Proof.
  intros c n Hn Hc Hgt.
  pose proof (count_positive_nonneg
                (threshold_binary 30 255
                   (absdiff reference (compared reference roi resized)))) as H0.
  fold (differing_pixels reference (compared reference roi resized)) in H0.
  fold c in H0.
  destruct (round_ratio_gt_0_3 c n ltac:(lia) ltac:(lia) Hgt) as [Hlo Hhi].
  unfold check_intrusion, diff_percentage.
  fold (differing_pixels reference (compared reference roi resized)).
  fold (total_pixels reference (compared reference roi resized)).
  fold c. fold n.
  rewrite truediv_pos by lia.
  destruct (Z.leb_spec huge (round_ratio (c * one) n)); [lia|].
  unfold gtb, intrusion_threshold. apply Z.ltb_lt. exact Hlo.
Qed.

Lemma intrusion_threshold_strict_witness :
  check_intrusion ref10 roi10_3 [] = false /\
  3 * total_pixels ref10 (compared ref10 roi10_4 [])
  < 10 * differing_pixels ref10 (compared ref10 roi10_4 []).
Proof.
  split.
  - apply (proj1 (intrusion_threshold_strict ref10 roi10_3 [])). reflexivity.
  - apply (proj2 (intrusion_threshold_strict ref10 roi10_4 [])).
    vm_compute. reflexivity.
Defined.

Example three_of_ten_differ :
  differing_pixels ref10 roi10_3 = 3 /\ total_pixels ref10 roi10_3 = 10 /\
  diff_percentage ref10 roi10_3 = Finite lit_0_3.
Proof. repeat split; vm_compute; reflexivity. Qed.

Example four_of_ten_signal : check_intrusion ref10 roi10_4 [] = true.
Proof. vm_compute. reflexivity. Qed.

End Threshold.

(** *** The status snapshot *)

Section Status.
Import Detector Samples.

Lemma monitor_step_detected clock (st : loop_state) (env : frame_env) :
  intrusion_detected (loop_detector (monitor_step clock st env))
  = intrusion_detected (loop_detector st).
Proof.
  unfold monitor_step.
  destruct (frame_read env) as [frame|]; [|reflexivity].
  destruct (face_bbox (loop_detector st)) as [[[[x1 y1] x2] y2]|]; [|reflexivity].
  destruct (reference_face (loop_detector st)) as [reference|]; [|reflexivity].
  destruct (check_intrusion _ _ _); [|reflexivity].
  destruct (PyFloat.gtb _ _); reflexivity.
Qed.

Lemma capture_detected (d : detector) (env : capture_env) :
  intrusion_detected (fst (capture_reference_face d env)) = intrusion_detected d.
Proof.
  unfold capture_reference_face, start_camera.
  destruct (camera_opened d); [|destruct (cap_opens env)]; simpl;
    try reflexivity;
    (destruct (cap_frame env) as [frame|]; [|reflexivity]);
    (destruct (select_face (cap_faces env)) as [f|]; [|reflexivity]);
    destruct (padded_bbox frame f) as [[[x1 y1] x2] y2]; reflexivity.
Qed.

Lemma start_monitoring_detected (d : detector) :
  intrusion_detected d = false ->
  intrusion_detected (fst (start_monitoring d)) = false.
Proof.
  intros H. unfold start_monitoring.
  destruct (reference_face d); [|assumption].
  destruct (face_bbox d); [|assumption].
  destruct (monitoring d); [assumption|reflexivity].
Qed.

Lemma reachable_not_detected (d : detector) :
  reachable d -> intrusion_detected d = false.
Proof.
  induction 1 as [|d opens _ IH|d env _ IH|d _ IH|d _ IH|d opens ticks _ IH
                  |d clock ticks events env _ IH].
  - reflexivity.
  - exact IH.
  - rewrite capture_detected. exact IH.
  - apply start_monitoring_detected. exact IH.
  - exact IH.
  - unfold monitor_loop, start_camera.
    destruct (camera_opened d); [exact IH|].
    destruct opens; exact IH.
  - rewrite monitor_step_detected. exact IH.
Qed.

(** C10.  In every state the detector can reach, the snapshot returned by
    [get_intrusion_status] reports [intrusion_detected = False], whatever the
    number of intrusions counted. *)
Theorem status_never_detected (d : detector) :
  reachable d ->
  status_intrusion_detected (get_intrusion_status d) = false.
Proof.
  intros H. simpl. apply reachable_not_detected. exact H.
Qed.

(** After a capture, a start and a frame that shows an intrusion the count is
    1 and the flag is still unset. *)
Lemma status_never_detected_witness :
  let d := loop_detector
             (monitor_step slow_clock (mkLoop watching 0 []) intruded) in
  status_intrusion_count (get_intrusion_status d) = 1 /\
  status_intrusion_detected (get_intrusion_status d) = false.
Proof.
  split.
  - vm_compute. reflexivity.
  - apply status_never_detected.
    apply reach_frame, reach_start, reach_capture, reach_init.
Defined.

End Status.

(** *** The cooldown between intrusion events *)

Section Cooldown.
Import PyFloat Detector Samples.

(** A difference of at most [n] seconds rounds to at most [n] seconds. *)
Lemma round_ratio_le_seconds (z n : Z) :
  0 <= n < 2 ^ 53 -> z <= n * one -> round_ratio z 1 <= n * one.
Proof.
  intros Hn Hz.
  assert (Hone : 0 < one) by reflexivity.
  destruct (Z_le_gt_dec z 0) as [Hneg|Hpos].
  - unfold round_ratio.
    pose proof (ulp_shift_nonneg (Z.abs z) 1) as Ht.
    assert (HT : 0 < 2 ^ ulp_shift (Z.abs z) 1) by (apply Z.pow_pos_nonneg; lia).
    pose proof (rne_nonneg (Z.abs z) (1 * 2 ^ ulp_shift (Z.abs z) 1)
                  ltac:(lia) ltac:(lia)) as Hm.
    assert (Hs : Z.sgn z <= 0) by (destruct z; simpl; lia).
    nia.
  - destruct (round_ratio_pos z 1 ltac:(lia) ltac:(lia)) as [-> _].
    set (t := ulp_shift z 1).
    assert (Ht0 : 0 <= t) by apply ulp_shift_nonneg.
    assert (Ht : t <= unit_exp).
    { apply ulp_shift_le; try (unfold unit_exp; lia).
      assert (E : 2 ^ (unit_exp + 53) = 2 ^ 53 * one) by reflexivity.
      rewrite E. nia. }
    pose proof (one_split t ltac:(lia)) as E1.
    assert (HT : 0 < 2 ^ t) by (apply Z.pow_pos_nonneg; lia).
    assert (HU : 0 < 2 ^ (unit_exp - t)) by (apply Z.pow_pos_nonneg; lia).
    pose proof (rne_half_up z (1 * 2 ^ t) ltac:(lia)) as Hup.
    rewrite E1 in Hz |- *.
    set (T := 2 ^ t) in *. set (U := 2 ^ (unit_exp - t)) in *.
    set (m := rne z (1 * T)) in *.
    assert (Hm : 2 * m <= 2 * (n * U) + 1) by nia.
    assert (m <= n * U) by lia.
    nia.
Qed.

(** The guard of line 171, read back: it holds only when strictly more than
    the cooldown has elapsed since the stored time. *)
Lemma cooldown_guard (now last : float) :
  gtb (sub now last) (intrusion_cooldown * one) = true ->
  last + intrusion_cooldown * one < now.
Proof.
  unfold gtb, sub, intrusion_cooldown. intros H. apply Z.ltb_lt in H.
  destruct (Z_lt_le_dec (last + 5 * one) now) as [|Hle]; [assumption|].
  pose proof (round_ratio_le_seconds (now - last) 5 ltac:(split; [lia|reflexivity])
                ltac:(lia)).
  lia.
Qed.

Section Loop.
Variable clock : nat -> float.
Hypothesis clock_nondecreasing : nondecreasing clock.

Lemma monitor_step_inv (count0 : Z) (st : loop_state) (env : frame_env) :
  loop_inv clock count0 st -> loop_inv clock count0 (monitor_step clock st env).
Proof.
  intros (Hsp & Hcount & Hlast). unfold monitor_step.
  destruct (frame_read env) as [frame|]; [|repeat split; assumption].
  destruct (face_bbox (loop_detector st)) as [[[[x1 y1] x2] y2]|];
    [|repeat split; assumption].
  destruct (reference_face (loop_detector st)) as [reference|];
    [|repeat split; assumption].
  destruct (check_intrusion _ _ _); [|repeat split; assumption].
  destruct (gtb _ _) eqn:G.
  - apply cooldown_guard in G.
    pose proof (clock_nondecreasing (loop_ticks st) (S (loop_ticks st))
                  ltac:(lia)) as Hmono.
    unfold loop_inv. cbn [loop_events loop_detector loop_ticks
                          intrusion_count last_intrusion_time
                          event_time event_number spaced List.length].
    repeat split.
    + destruct (loop_events st) as [|e rest]; [exact I|].
      destruct Hlast as (Ht & Hn & _). split; [lia|lia].
    + exact Hsp.
    + rewrite Hcount. lia.
    + exists (S (loop_ticks st)). split; [lia|reflexivity].
  - unfold loop_inv. cbn [loop_events loop_detector loop_ticks].
    repeat split; try assumption.
    destruct (loop_events st) as [|e rest]; [exact I|].
    destruct Hlast as (Ht & Hn & k & Hk & Ek).
    repeat split; try assumption. exists k. split; [lia|assumption].
Qed.

Lemma monitor_fold_inv (count0 : Z) (frames : list frame_env) (st : loop_state) :
  loop_inv clock count0 st ->
  loop_inv clock count0 (monitor_frames clock st frames).
Proof.
  unfold monitor_frames. revert st. induction frames as [|env frames IH]; intros st H; simpl.
  - exact H.
  - apply IH. destruct (monitoring (loop_detector st)); [|exact H].
    apply monitor_step_inv. exact H.
Qed.


End Loop.



End Cooldown.

(** *** The question plan *)

Section Plan.
Import PySeq Conductor Samples.

Lemma slice_to_firstn {A : Type} (l : list A) (b : Z) :
  0 <= b -> slice_to l b = firstn (Z.to_nat b) l.
Proof.
  intros Hb. unfold slice_to, slice, bound.
  destruct (Z.ltb_spec 0 0) as [|_]; [lia|].
  destruct (Z.ltb_spec b 0) as [|_]; [lia|].
  rewrite (Z.min_l 0) by lia. simpl skipn. rewrite Z.sub_0_r.
  destruct (Z.min_spec b (Z.of_nat (List.length l))) as [[_ ->]|[Hle ->]].
  - reflexivity.
  - rewrite Nat2Z.id. rewrite firstn_all.
    symmetry. apply firstn_all2. lia.
Qed.

Lemma slice_to_length {A : Type} (l : list A) (b : Z) :
  0 <= b ->
  List.length (slice_to l b) = Nat.min (Z.to_nat b) (List.length l).
Proof.
  intros Hb. rewrite slice_to_firstn by assumption. apply length_firstn.
Qed.

Lemma generic_questions_length (role : string) :
  List.length (generic_questions role) = 10%nat.
Proof. reflexivity. Qed.

(** Whatever the language model returns, [generate_questions] changes the
    two lists only, and both get the planned length. *)
Lemma generate_questions_planned (c : conductor) (response : option string) :
  0 <= num_questions c <= 10 ->
  planned (fst (generate_questions c response)) /\
  exists questions,
    fst (generate_questions c response)
    = with_answers (with_questions c questions)
                   (repeat ""%string (List.length questions)).
Proof.
  intros HN.
  assert (Hfall :
    let questions := slice_to (generic_questions (job_role c)) (num_questions c) in
    planned (with_answers (with_questions c questions)
                          (repeat ""%string (List.length questions)))).
  { intros questions. unfold planned. simpl.
    rewrite repeat_length. unfold questions.
    rewrite slice_to_length, generic_questions_length by lia. lia. }
  unfold generate_questions.
  destruct response as [[|ch r]|]; try (split; [apply Hfall|eexists; reflexivity]).
  destruct (extract_questions (String ch r)) as [|q qs] eqn:E;
    [split; [apply Hfall|eexists; reflexivity]|].
  split; [|eexists; reflexivity].
  unfold planned. cbn [fst interview_questions candidate_answers num_questions
                       with_answers with_questions].
  rewrite repeat_length.
  set (n := Z.of_nat (List.length (q :: qs))).
  destruct (Z.ltb_spec (num_questions c) n).
  - rewrite slice_to_length by lia. subst n. lia.
  - destruct (Z.ltb_spec n (num_questions c)).
    + rewrite length_app, slice_to_length, generic_questions_length by lia.
      subst n. lia.
    + subst n. lia.
Qed.




End Plan.

(** *** The answer of one window *)

Section Answer.
Import PySeq PyStr Conductor Samples.





Lemma update_length {A : Type} (l : list A) (i : nat) (v : A) :
  List.length (update l i v) = List.length l.
Proof.
  revert i. induction l as [|h t IH]; intros [|i]; simpl; auto.
Qed.




Lemma setitem_length {A : Type} (l l' : list A) (i : Z) (v : A) :
  setitem l i v = Some l' -> List.length l' = List.length l.
Proof.
  unfold setitem. destruct (_ && _); [|discriminate].
  intros H. inversion H. apply update_length.
Qed.

Lemma getitem_nonneg {A : Type} (l : list A) (i : Z) :
  0 <= i < Z.of_nat (List.length l) ->
  getitem l i = nth_error l (Z.to_nat i).
Proof.
  intros H. unfold getitem.
  destruct (Z.ltb_spec i 0) as [|_]; [lia|].
  destruct (Z.leb_spec 0 i) as [_|]; [|lia].
  destruct (Z.ltb_spec i (Z.of_nat (List.length l))) as [_|]; [|lia].
  reflexivity.
Qed.




Example fragments_joined_by_spaces :
  transcript (capture good_morning) = " good morning"%string /\
  String.concat "" (texts (capture good_morning)) = "goodmorning"%string.
Proof. split; reflexivity. Qed.

Example untranscribed_answer_is_empty :
  getitem (candidate_answers
             (fst (record_audio (with_in_progress planned_engineer true) 0
                                [Heard UnknownValueError]))) 0
  = Some ""%string.
Proof. reflexivity. Qed.

End Answer.

(** *** The session *)

Section Session.
Import PySeq PyStr PyFloat Conductor Samples.

Lemma same_script_refl (c : conductor) : same_script c c.
Proof. unfold same_script. repeat split. Qed.

Lemma same_script_trans (a b c : conductor) :
  same_script a b -> same_script b c -> same_script a c.
Proof.
  unfold same_script. intros (H1 & H2 & H3 & H4 & H5 & H6) (G1 & G2 & G3 & G4 & G5 & G6).
  repeat split; congruence.
Qed.

Lemma finish_recording_script (c : conductor) (i : Z) (audio : list recognition) :
  same_script c (fst (finish_recording c i audio)) /\
  interview_in_progress (fst (finish_recording c i audio)) = interview_in_progress c /\
  intrusion_detector (fst (finish_recording c i audio)) = intrusion_detector c /\
  forallb (fun e => negb (is_report e)) (snd (finish_recording c i audio)) = true /\
  skip_notices (snd (finish_recording c i audio)) = 0%nat.
Proof.
  unfold finish_recording.
  destruct (setitem (candidate_answers c) i _) as [answers|] eqn:E.
  - apply setitem_length in E. unfold same_script. simpl.
    repeat split; try assumption;
      destruct audio; try reflexivity;
      destruct (interview_in_progress c); reflexivity.
  - simpl. repeat split.
Qed.

Lemma stop_interview_script (c : conductor) :
  same_script c (fst (stop_interview c)) /\
  interview_in_progress (fst (stop_interview c)) = false /\
  (interview_in_progress c = true -> use_intrusion_detection c = true ->
   Detector.monitoring (intrusion_detector (fst (stop_interview c))) = false) /\
  (Detector.monitoring (intrusion_detector c) = false ->
   Detector.monitoring (intrusion_detector (fst (stop_interview c))) = false) /\
  forallb (fun e => negb (is_report e)) (snd (stop_interview c)) = true /\
  skip_notices (snd (stop_interview c)) = 0%nat.
Proof.
  unfold stop_interview.
  destruct (interview_in_progress c) eqn:P;
    cbn [use_intrusion_detection with_stop_recording with_in_progress];
    destruct (use_intrusion_detection c) eqn:U; unfold same_script; simpl;
    repeat split; try assumption; try congruence; auto.
Qed.

Lemma monitor_step_monitoring clock (st : Detector.loop_state) env :
  Detector.monitoring (Detector.loop_detector (Detector.monitor_step clock st env))
  = Detector.monitoring (Detector.loop_detector st).
Proof.
  unfold Detector.monitor_step.
  destruct (Detector.frame_read env) as [frame|]; [|reflexivity].
  destruct (Detector.face_bbox _) as [[[[x1 y1] x2] y2]|]; [|reflexivity].
  destruct (Detector.reference_face _) as [reference|]; [|reflexivity].
  destruct (Detector.check_intrusion _ _ _); [|reflexivity].
  destruct (PyFloat.gtb _ _); reflexivity.
Qed.

Lemma monitor_frames_monitoring clock frames (st : Detector.loop_state) :
  Detector.monitoring (Detector.loop_detector (Detector.monitor_frames clock st frames))
  = Detector.monitoring (Detector.loop_detector st).
Proof.
  unfold Detector.monitor_frames. revert st.
  induction frames as [|env frames IH]; intros st; simpl; [reflexivity|].
  rewrite IH.
  destruct (Detector.monitoring (Detector.loop_detector st)) eqn:M;
    [rewrite monitor_step_monitoring|]; exact M.
Qed.

Lemma watch_script (c : conductor) (env : window_env) :
  same_script c (watch c env) /\
  interview_in_progress (watch c env) = interview_in_progress c /\
  Detector.monitoring (intrusion_detector (watch c env))
  = Detector.monitoring (intrusion_detector c).
Proof.
  unfold watch, same_script. simpl. repeat split.
  apply monitor_frames_monitoring.
Qed.

Lemma skip_notices_app (a b : list event) :
  skip_notices (a ++ b) = (skip_notices a + skip_notices b)%nat.
Proof. unfold skip_notices. now rewrite filter_app, length_app. Qed.

(** What one answer window does to the conductor, whatever happens in it. *)
Lemma answer_window_script (c : conductor) (env : window_env) :
  same_script c (fst (answer_window c env)) /\
  (win_cancel env = NotCancelled ->
   interview_in_progress (fst (answer_window c env)) = interview_in_progress c) /\
  (win_cancel env <> NotCancelled ->
   interview_in_progress (fst (answer_window c env)) = false) /\
  (win_cancel env <> NotCancelled -> interview_in_progress c = true ->
   use_intrusion_detection c = true ->
   Detector.monitoring (intrusion_detector (fst (answer_window c env))) = false) /\
  (Detector.monitoring (intrusion_detector c) = false ->
   Detector.monitoring (intrusion_detector (fst (answer_window c env))) = false) /\
  forallb (fun e => negb (is_report e)) (snd (answer_window c env)) = true /\
  skip_notices (snd (answer_window c env)) = 0%nat.
Proof.
  unfold answer_window.
  destruct (watch_script c env) as (Sw & Pw & Mw).
  set (c0 := with_stop_recording (watch c env) false).
  assert (S0 : same_script c c0) by exact Sw.
  assert (P0 : interview_in_progress c0 = interview_in_progress c) by exact Pw.
  assert (M0 : Detector.monitoring (intrusion_detector c0)
               = Detector.monitoring (intrusion_detector c)) by exact Mw.
  assert (U0 : use_intrusion_detection c0 = use_intrusion_detection c)
    by (destruct S0 as (_ & _ & _ & _ & U & _); exact U).
  clearbody c0. clear Sw Pw Mw.
  set (i := current_question_index c). set (audio := capture (win_attempts env)).
  destruct (win_cancel env) eqn:Cn.
  - (* no request to stop *)
    destruct (finish_recording_script c0 i audio) as (S1 & P1 & D1 & R1 & K1).
    split; [eapply same_script_trans; eassumption|].
    repeat split; try congruence; try assumption.
  - (* stopped before the answer *)
    destruct (stop_interview_script c0) as (S1 & P1 & M1 & N1 & R1 & K1).
    destruct (stop_interview c0) as [c1 e1]. simpl in *.
    destruct (finish_recording_script c1 i audio) as (S2 & P2 & D2 & R2 & K2).
    destruct (finish_recording c1 i audio) as [c2 e2]. simpl in *.
    split; [eapply same_script_trans; [exact S0|];
            eapply same_script_trans; eassumption|].
    repeat split; try congruence.
    + intros _ P U. rewrite D2. apply M1; congruence.
    + intros M. rewrite D2. apply N1. congruence.
    + rewrite forallb_app, R1, R2. reflexivity.
    + rewrite skip_notices_app, K1, K2. reflexivity.
  - (* stopped after the answer *)
    destruct (finish_recording_script c0 i audio) as (S1 & P1 & D1 & R1 & K1).
    destruct (finish_recording c0 i audio) as [c1 e1]. simpl in *.
    destruct (stop_interview_script c1) as (S2 & P2 & M2 & N2 & R2 & K2).
    destruct (stop_interview c1) as [c2 e2]. simpl in *.
    assert (U1 : use_intrusion_detection c1 = use_intrusion_detection c0)
      by (destruct S1 as (_ & _ & _ & _ & U & _); exact U).
    split; [eapply same_script_trans; [exact S0|];
            eapply same_script_trans; eassumption|].
    repeat split; try congruence.
    + intros _ P U. apply M2; congruence.
    + intros M. apply N2. congruence.
    + rewrite forallb_app, R1, R2. reflexivity.
    + rewrite skip_notices_app, K1, K2. reflexivity.
  - (* the main thread interrupted *)
    destruct (stop_interview_script c0) as (S1 & P1 & M1 & N1 & R1 & K1).
    destruct (stop_interview c0) as [c1 e1]. simpl in *.
    destruct (finish_recording_script c1 i audio) as (S2 & P2 & D2 & R2 & K2).
    destruct (finish_recording c1 i audio) as [c2 e2]. simpl in *.
    split; [eapply same_script_trans; [exact S0|];
            eapply same_script_trans; eassumption|].
    repeat split; try congruence.
    + intros _ P U. rewrite D2. apply M1; congruence.
    + intros M. rewrite D2. apply N1. congruence.
    + rewrite forallb_app, R1, R2. reflexivity.
    + rewrite skip_notices_app, K1, K2. reflexivity.
Qed.


Lemma advance_script (c : conductor) (start_time now : float) :
  let c' := fst (advance c start_time now) in
  interview_questions c' = interview_questions c /\
  num_questions c' = num_questions c /\
  candidate_answers c' = candidate_answers c /\
  interview_in_progress c' = interview_in_progress c /\
  intrusion_detector c' = intrusion_detector c /\
  use_intrusion_detection c' = use_intrusion_detection c /\
  current_question_index c < current_question_index c'.
Proof.
  unfold advance.
  change (remaining_minutes (with_index c (current_question_index c + 1))
                            start_time now)
    with (remaining_minutes c start_time now).
  destruct (remaining_minutes c start_time now) as [r| |];
    try (cbn [fst interview_questions num_questions candidate_answers
              interview_in_progress intrusion_detector use_intrusion_detection
              current_question_index with_index]; repeat split; lia).
  unfold skip_ahead.
  cbn [interview_questions current_question_index with_index].
  destruct (ltb r (2 * one) && _) eqn:G;
    cbn [fst interview_questions num_questions candidate_answers
         interview_in_progress intrusion_detector use_intrusion_detection
         current_question_index with_index]; repeat split; lia.
Qed.

(** A rule for the loop of [start_interview]: an invariant [I] of the loop
    head that each way out of the loop turns into [Post]. *)
Lemma question_loop_rule (start_time : float) (feedback : option string)
      (I : conductor -> list event -> Prop) (Post : outcome -> Prop) :
  Post OutOfFuel ->
  (forall c tr, I c tr -> asking c = false ->
     Post (Returned (fst (end_interview c feedback))
                    (tr ++ snd (end_interview c feedback)))) ->
  (forall c tr, I c tr -> asking c = true -> Post (Raised c tr)) ->
  (forall c tr env q,
     I c tr -> asking c = true ->
     getitem (interview_questions c) (current_question_index c) = Some q ->
     win_cancel env = KeyboardInterrupt ->
     Post (Interrupted (fst (answer_window c env))
             (tr ++ Speak (AskQuestion (current_question_index c + 1) q)
                 :: snd (answer_window c env)))) ->
  (forall c tr env q,
     I c tr -> asking c = true ->
     getitem (interview_questions c) (current_question_index c) = Some q ->
     win_cancel env <> KeyboardInterrupt ->
     let c1 := with_stop_recording (fst (answer_window c env)) true in
     let said := Speak (AskQuestion (current_question_index c + 1) q)
                 :: snd (answer_window c env) ++ intrusion_alert c1 in
     match snd (advance c1 start_time (win_now env)) with
     | None => Post (Raised (fst (advance c1 start_time (win_now env)))
                            (tr ++ said))
     | Some moved => I (fst (advance c1 start_time (win_now env)))
                       (tr ++ said ++ moved)
     end) ->
  forall fuel envs k c tr,
    I c tr -> Post (question_loop fuel envs k start_time feedback c tr).
Proof.
  intros Hfuel Hexit Hitem Hint Hstep.
  induction fuel as [|fuel IH]; intros envs k c tr Hc; cbn [question_loop];
    fold (asking c); destruct (asking c) eqn:A;
    try (specialize (Hexit c tr Hc A);
         destruct (end_interview c feedback) as [c' ended]; exact Hexit).
  - exact Hfuel.
  - destruct (getitem (interview_questions c) (current_question_index c))
      as [q|] eqn:G; [|apply Hitem; assumption].
    specialize (Hint c tr (envs k) q Hc A G).
    specialize (Hstep c tr (envs k) q Hc A G).
    destruct (answer_window c (envs k)) as [c1 heard].
    cbn [fst snd] in Hint, Hstep.
    destruct (win_cancel (envs k));
      try (apply Hint; reflexivity);
      (specialize (Hstep ltac:(discriminate)); cbv zeta in Hstep;
       destruct (advance (with_stop_recording c1 true) start_time
                         (win_now (envs k))) as [c2 [moved|]];
       cbn [fst snd] in Hstep;
       [apply IH|];
       rewrite <- ?app_comm_cons, <- ?app_assoc in Hstep; exact Hstep).
Qed.







(** *** The lengths of the two lists *)

Lemma end_interview_script (c : conductor) (feedback : option string) :
  same_script c (fst (end_interview c feedback)).
Proof.
  unfold end_interview.
  cbn [use_intrusion_detection with_in_progress].
  destruct (use_intrusion_detection c) eqn:U;
    cbn [use_intrusion_detection with_detector with_in_progress
         interview_questions current_question_index];
    destruct (_ <=? _); unfold same_script; cbn; repeat split; assumption.
Qed.

Lemma arm_lists (c : conductor) (opens : bool) :
  interview_questions (arm c opens) = interview_questions c /\
  candidate_answers (arm c opens) = candidate_answers c /\
  num_questions (arm c opens) = num_questions c /\
  current_question_index (arm c opens) = 0.
Proof.
  unfold arm. cbn [use_intrusion_detection with_in_progress with_index
                   intrusion_detector].
  destruct (use_intrusion_detection c); [|repeat split].
  destruct (Detector.start_monitoring (intrusion_detector c)) as [d' [|]];
    repeat split.
Qed.

Lemma planned_same_script (c c' : conductor) :
  same_script c c' -> planned c -> planned c'.
Proof.
  unfold same_script, planned. intros (Hq & _ & Hn & Ha & _) [H1 H2].
  rewrite Hq, Hn, Ha. split; assumption.
Qed.

(** No operation after the plan changes the length of either list. *)
Lemma after_plan_planned (c0 c : conductor) :
  planned c0 -> after_plan c0 c ->
  planned c /\ num_questions c = num_questions c0.
Proof.
  intros H0. induction 1 as [|c opens _ [IH En]|c env _ [IH En]
                             |c i attempts _ [IH En]|c env _ [IH En]
                             |c st now _ [IH En]|c b _ [IH En]|c _ [IH En]
                             |c fb _ [IH En]].
  - split; [assumption|reflexivity].
  - destruct (arm_lists c opens) as (Hq & Ha & Hn & _).
    unfold planned. rewrite Hq, Ha, Hn. split; [exact IH|exact En].
  - destruct (watch_script c env) as (S & _).
    split; [eapply planned_same_script; eassumption|].
    destruct S as (_ & _ & Hn & _). congruence.
  - destruct (finish_recording_script (with_stop_recording c false) i
                (capture attempts)) as (S & _).
    split; [eapply planned_same_script; [exact S|exact IH]|].
    destruct S as (_ & _ & Hn & _). unfold record_audio.
    rewrite Hn. exact En.
  - destruct (answer_window_script c env) as (S & _).
    split; [eapply planned_same_script; eassumption|].
    destruct S as (_ & _ & Hn & _). congruence.
  - destruct (advance_script c st now) as (Hq & Hn & Ha & _).
    unfold planned. rewrite Hq, Hn, Ha. split; [exact IH|exact En].
  - split; [exact IH|exact En].
  - destruct (stop_interview_script c) as (S & _).
    split; [eapply planned_same_script; eassumption|].
    destruct S as (_ & _ & Hn & _). congruence.
  - pose proof (end_interview_script c fb) as S.
    split; [eapply planned_same_script; eassumption|].
    destruct S as (_ & _ & Hn & _). congruence.
Qed.

(** The loop of [start_interview] ends within as many rounds as there are
    questions left. *)
Lemma question_loop_fuel (start_time : float) (feedback : option string)
      (fuel : nat) :
  forall envs k c tr,
    Z.of_nat (List.length (interview_questions c)) - current_question_index c
    <= Z.of_nat fuel ->
    question_loop fuel envs k start_time feedback c tr <> OutOfFuel.
Proof.
  induction fuel as [|fuel IH]; intros envs k c tr Hf; cbn [question_loop].
  - destruct (Z.ltb_spec (current_question_index c)
                (Z.of_nat (List.length (interview_questions c)))); [lia|].
    cbn [andb]. destruct (end_interview c feedback). discriminate.
  - destruct (_ && _); [|destruct (end_interview c feedback); discriminate].
    destruct (getitem _ _) as [q|]; [|discriminate].
    destruct (answer_window_script c (envs k)) as ((Sq & Si & _) & _).
    destruct (answer_window c (envs k)) as [c1 heard]. cbn [fst] in Sq, Si.
    destruct (advance_script (with_stop_recording c1 true) start_time
                (win_now (envs k))) as (Hq & _ & _ & _ & _ & _ & Hi).
    cbn [interview_questions current_question_index with_stop_recording] in Hq, Hi.
    destruct (win_cancel (envs k)); try discriminate;
      (destruct (advance (with_stop_recording c1 true) start_time
                         (win_now (envs k))) as [c2 [moved|]];
       [|discriminate]; cbn [fst] in Hq, Hi; apply IH; rewrite Hq, Sq; lia).
Qed.

Lemma start_interview_after_plan (c : conductor) (env : session_env) :
  exists c', final_state (start_interview c env) = Some c' /\ after_plan c c'.
Proof.
  assert (H : match final_state (start_interview c env) with
              | Some c' => after_plan c c'
              | None => True
              end).
  { unfold start_interview.
    apply (question_loop_rule (ses_start_time env) (ses_feedback env)
             (fun c' _ => after_plan c c')
             (fun o => match final_state o with
                       | Some c' => after_plan c c'
                       | None => True
                       end)); cbv beta.
    - exact I.
    - intros c1 tr H _. cbn [final_state]. now apply plan_end.
    - intros c1 tr H _. exact H.
    - intros c1 tr w q H _ _ _. cbn [final_state]. now apply plan_window.
    - intros c1 tr w q H _ _ _ c2 said.
      assert (H2 : after_plan c (fst (advance c2 (ses_start_time env) (win_now w))))
        by (apply plan_advance, plan_flag, plan_window; exact H).
      destruct (snd (advance c2 (ses_start_time env) (win_now w))); exact H2.
    - apply plan_arm, plan_made. }
  destruct (final_state (start_interview c env)) as [c'|] eqn:E.
  - exists c'. split; [reflexivity|exact H].
  - exfalso. unfold start_interview in E.
    pose proof (question_loop_fuel (ses_start_time env) (ses_feedback env)
                  (List.length (interview_questions (arm c (ses_opens env))))
                  (ses_windows env) 0 (arm c (ses_opens env))) as F.
    destruct (arm_lists c (ses_opens env)) as (_ & _ & _ & Hi).
    match type of E with
    | final_state (question_loop _ _ _ _ _ _ ?tr) = None =>
        specialize (F tr ltac:(rewrite Hi; lia));
        destruct (question_loop _ _ _ _ _ _ tr); try discriminate E
    end.
    apply F. reflexivity.
Qed.

Lemma configure_planned (setup : setup_env) (c0 : conductor)
      (printed : list event) :
  configure init setup = Some (c0, printed) ->
  1 <= num_questions c0 <= 10 /\ planned c0.
Proof.
  unfold configure.
  destruct (read_positive (typed_durations setup)) as [d|]; [|discriminate].
  destruct (read_positive (typed_answer_times setup)) as [p|]; [|discriminate].
  destruct (read_choice (typed_detection setup)) as [wanted|]; [|discriminate].
  destruct (if wanted then _ else _) as [det captured].
  destruct (question_count d p) as [n|] eqn:Q; [|discriminate].
  apply question_count_range in Q.
  set (c := mkConductor _ _ _ _ _ _ _ _ _ _ _ _).
  intros H.
  destruct (generate_questions_planned c (questions_response setup)
              ltac:(simpl; lia)) as [Hp [qs Hc]].
  rewrite (surjective_pairing (generate_questions c (questions_response setup))) in H.
  inversion H; subst. split; [|exact Hp].
  rewrite Hc. simpl. exact Q.
Qed.

(** C5.  Once [setup_interview] has generated the questions, on whichever
    path, both lists have N entries; every later operation of the session
    keeps it so; and the session comes to an end with both lists still of
    length N. *)
Theorem plan_lengths_kept (setup : setup_env) (c0 : conductor)
        (printed : list event) :
  configure init setup = Some (c0, printed) ->
  planned c0 /\
  (forall c, after_plan c0 c ->
             planned c /\ num_questions c = num_questions c0) /\
  (forall session,
      exists c, final_state (start_interview c0 session) = Some c /\ planned c).
Proof.
  intros H. destruct (configure_planned setup c0 printed H) as [_ Hp].
  split; [exact Hp|]. split.
  - intros c. apply after_plan_planned. exact Hp.
  - intros session.
    destruct (start_interview_after_plan c0 session) as (c & E & A).
    exists c. split; [exact E|].
    apply (after_plan_planned c0 c Hp A).
Qed.

Lemma plan_lengths_kept_witness :
  planned planned_engineer /\
  planned (fst (record_audio (with_in_progress planned_engineer true) 1
                             good_morning)).
Proof.
  destruct (plan_lengths_kept short_setup planned_engineer
              [PrintQuestionError "No valid questions generated"]
              ltac:(vm_compute; reflexivity)) as (H0 & Hall & _).
  split; [exact H0|].
  apply Hall. apply plan_record.
  exact (plan_arm planned_engineer planned_engineer true
           (plan_made planned_engineer)).
Defined.

(** *** A session that is stopped *)










(** Stopped during the last question, the session counts as completed: the
    summary is printed and feedback is requested. *)
Example stopped_at_last_question_completes :
  existsb is_report (final_trace (start_interview planned_engineer stopped_at_last))
  = true /\
  In (Speak InterviewStopped)
     (final_trace (start_interview planned_engineer stopped_at_last)).
Proof. split; vm_compute; [reflexivity|tauto]. Qed.

End Session.

(** *** More on the detector *)

Section Faces.
Import Detector Geometry Cases.




End Faces.

Section Capture.
Import Detector Geometry PySeq.

Lemma largest_from_range (rest : list face) (i b : nat) (A : Z) :
  largest_from rest i b A = b \/
  (i <= largest_from rest i b A < i + List.length rest)%nat.
Proof.
  revert i b A. induction rest as [|[[[x y] w] h] rest IH]; intros i b A;
    cbn [largest_from List.length]; [now left|].
  destruct (A <? w * h).
  - right. destruct (IH (S i) i (w * h)) as [->|H]; lia.
  - destruct (IH (S i) b A) as [->|H]; [now left|right; lia].
Qed.

Lemma select_face_defined (faces : list face) :
  faces <> [] -> exists f, select_face faces = Some f.
Proof.
  destruct faces as [|f0 [|f1 rest]]; intros H; [congruence|eexists; reflexivity|].
  unfold select_face.
  destruct (nth_error (f0 :: f1 :: rest)
                      (largest_from (f0 :: f1 :: rest) 0 0 0)) as [f|] eqn:E;
    [eexists; reflexivity|].
  apply nth_error_None in E.
  destruct (largest_from_range (f0 :: f1 :: rest) 0 0 0) as [R|R];
    [rewrite R in E|]; simpl in *; lia.
Qed.

(** X2.  [capture_reference_face] succeeds exactly when the camera is or can
    be opened, a frame is read and a face is detected; when it fails,
    nothing but the camera handle changes. *)
Theorem capture_outcome (d : detector) (env : capture_env) :
  (snd (capture_reference_face d env) = true <->
   (camera_opened d || cap_opens env = true) /\
   cap_frame env <> None /\ cap_faces env <> []) /\
  (snd (capture_reference_face d env) = false ->
   let d' := fst (capture_reference_face d env) in
   reference_face d' = reference_face d /\ face_bbox d' = face_bbox d /\
   monitoring d' = monitoring d /\ intrusion_count d' = intrusion_count d /\
   last_intrusion_time d' = last_intrusion_time d).
Proof.
  unfold capture_reference_face, start_camera.
  destruct (camera_opened d) eqn:Co; [|destruct (cap_opens env) eqn:Op];
    cbn [negb orb fst snd];
    try (split; [split; [discriminate|intros (H & _); discriminate H]
                |intros _; repeat split]).
  all: destruct (cap_frame env) as [frame|];
    [|split; [split; [discriminate|intros (_ & H & _); congruence]
             |intros _; repeat split]].
  all: destruct (cap_faces env) as [|f0 faces] eqn:Fs;
    [cbn [select_face];
     split; [split; [discriminate|intros (_ & _ & H); congruence]
            |intros _; repeat split]|].
  all: assert (Hsel : exists f, select_face (f0 :: faces) = Some f)
    by (apply select_face_defined; discriminate).
  all: destruct Hsel as [f ->];
    destruct (padded_bbox frame f) as [[[x1 y1] x2] y2];
    cbn [fst snd];
    (split; [split; [intros _; repeat split; discriminate|reflexivity]
            |discriminate]).
Qed.

End Capture.

Section Region.
Import Detector Geometry PySeq Samples.

Lemma slice_length {A : Type} (l : list A) (a b : Z) :
  0 <= a <= b -> b <= Z.of_nat (List.length l) ->
  Z.of_nat (List.length (slice l a b)) = b - a.
Proof.
  intros Hab Hb. unfold slice, bound.
  destruct (Z.ltb_spec a 0); [lia|]. destruct (Z.ltb_spec b 0); [lia|].
  rewrite !Z.min_l by lia.
  rewrite length_firstn, length_skipn. lia.
Qed.

Lemma in_firstn {A : Type} (n : nat) (l : list A) (x : A) :
  In x (firstn n l) -> In x l.
Proof.
  revert l. induction n as [|n IH]; intros [|h t]; simpl; try tauto.
  intros [->|H]; [now left|right; now apply IH].
Qed.

Lemma in_skipn {A : Type} (n : nat) (l : list A) (x : A) :
  In x (skipn n l) -> In x l.
Proof.
  revert l. induction n as [|n IH]; intros [|h t]; simpl; try tauto.
  intros H. right. now apply IH.
Qed.

Lemma slice_incl {A : Type} (l : list A) (a b : Z) (x : A) :
  In x (slice l a b) -> In x l.
Proof.
  unfold slice. intros H. apply in_firstn in H.
  eapply in_skipn. exact H.
Qed.

Lemma rectangular_shape1 (W H : Z) (img : image) :
  rectangular W H img -> 0 < H -> shape1 img = W.
Proof.
  intros [H0 Hrows] Hpos. unfold shape0, shape1 in *.
  destruct img as [|row rest]; [simpl in H0; lia|].
  inversion Hrows; subst. reflexivity.
Qed.

Lemma crop_rectangular (W H : Z) (img : image) (y1 y2 x1 x2 : Z) :
  rectangular W H img ->
  0 <= x1 <= x2 -> x2 <= W -> 0 <= y1 <= y2 -> y2 <= H ->
  rectangular (x2 - x1) (y2 - y1) (crop img y1 y2 x1 x2).
Proof.
  intros [H0 Hrows] Hx Hx2 Hy Hy2. unfold rectangular, crop, shape0 in *.
  split.
  - rewrite length_map. apply slice_length; lia.
  - apply Forall_forall. intros row Hin. apply in_map_iff in Hin.
    destruct Hin as (row0 & <- & Hin). apply slice_incl in Hin.
    rewrite Forall_forall in Hrows. specialize (Hrows row0 Hin).
    apply slice_length; lia.
Qed.

Lemma capture_stores (d d' : detector) (env : capture_env) :
  capture_reference_face d env = (d', true) ->
  exists frame f,
    cap_frame env = Some frame /\ select_face (cap_faces env) = Some f /\
    let '(x1, y1, x2, y2) := padded_bbox frame f in
    face_bbox d' = Some (x1, y1, x2, y2) /\
    reference_face d' = Some (crop frame y1 y2 x1 x2) /\
    camera_opened d' = true /\ monitoring d' = monitoring d /\
    intrusion_count d' = intrusion_count d.
Proof.
  unfold capture_reference_face, start_camera.
  destruct (camera_opened d) eqn:Co; [|destruct (cap_opens env)]; simpl;
    try (intros H; discriminate H);
    (destruct (cap_frame env) as [frame|]; [|intros H; discriminate H]);
    (destruct (select_face (cap_faces env)) as [f|]; [|intros H; discriminate H]);
    exists frame, f;
    destruct (padded_bbox frame f) as [[[x1 y1] x2] y2];
    inversion H; subst; clear H; simpl; repeat split; assumption.
Qed.

(** X3.  After a successful capture from a [W] x [H] frame in which the
    detected faces lie, the reference has exactly the size of the stored box,
    which is not empty; so the region cut from any later [W] x [H] frame has
    the reference's shape and is compared as it is, without resizing. *)
Theorem reference_matches_box (d d' : detector) (env : capture_env) (W H : Z) :
  capture_reference_face d env = (d', true) ->
  (forall frame, cap_frame env = Some frame -> rectangular W H frame) ->
  Forall (face_inside W H) (cap_faces env) ->
  exists x1 y1 x2 y2 reference,
    face_bbox d' = Some (x1, y1, x2, y2) /\
    reference_face d' = Some reference /\
    0 < x2 - x1 /\ 0 < y2 - y1 /\
    rectangular (x2 - x1) (y2 - y1) reference /\
    forall later resized,
      rectangular W H later ->
      compared reference (crop later y1 y2 x1 x2) resized
      = crop later y1 y2 x1 x2.
Proof.
  intros Hcap Hrect Hfaces.
  destruct (capture_stores d d' env Hcap) as (frame & f & Hf & Hs & Hst).
  specialize (Hrect frame Hf).
  rewrite Forall_forall in Hfaces.
  specialize (Hfaces f (select_face_In _ _ Hs)).
  destruct f as [[[x y] w] h]. unfold face_inside in Hfaces.
  assert (HH : 0 < H) by lia.
  pose proof (rectangular_shape1 W H frame Hrect HH) as Hw.
  assert (Hh : shape0 frame = H) by (destruct Hrect; assumption).
  unfold padded_bbox, bbox_padding in Hst. rewrite Hw, Hh in Hst.
  set (x1 := Z.max 0 (x - 20)) in *. set (y1 := Z.max 0 (y - 20)) in *.
  set (x2 := Z.min W (x + w + 20)) in *. set (y2 := Z.min H (y + h + 20)) in *.
  destruct Hst as (Hb & Hr & _).
  assert (Hx : 0 <= x1 <= x2 /\ x2 <= W /\ 0 < x2 - x1) by lia.
  assert (Hy : 0 <= y1 <= y2 /\ y2 <= H /\ 0 < y2 - y1) by lia.
  pose proof (crop_rectangular W H frame y1 y2 x1 x2 Hrect
                ltac:(lia) ltac:(lia) ltac:(lia) ltac:(lia)) as Rref.
  exists x1, y1, x2, y2, (crop frame y1 y2 x1 x2).
  repeat split; try assumption; try lia; try apply Rref.
  intros later resized Hlater.
  pose proof (crop_rectangular W H later y1 y2 x1 x2 Hlater
                ltac:(lia) ltac:(lia) ltac:(lia) ltac:(lia)) as Rl.
  unfold compared.
  rewrite (rectangular_shape1 _ _ _ Rref ltac:(lia)).
  rewrite (rectangular_shape1 _ _ _ Rl ltac:(lia)).
  destruct Rref as [-> _]. destruct Rl as [-> _].
  rewrite !Z.eqb_refl. reflexivity.
Qed.

Lemma reference_matches_box_witness :
  exists x1 y1 x2 y2 reference,
    face_bbox (fst (capture_reference_face init small_env))
    = Some (x1, y1, x2, y2) /\
    reference_face (fst (capture_reference_face init small_env))
    = Some reference /\
    0 < x2 - x1 /\ 0 < y2 - y1 /\
    rectangular (x2 - x1) (y2 - y1) reference /\
    forall later resized,
      rectangular 5 2 later ->
      compared reference (crop later y1 y2 x1 x2) resized
      = crop later y1 y2 x1 x2.
Proof.
  assert (Hcap : capture_reference_face init small_env
                 = (fst (capture_reference_face init small_env), true))
    by reflexivity.
  assert (Hrect : forall frame, cap_frame small_env = Some frame ->
                                rectangular 5 2 frame).
  { intros frame E. injection E as <-. split; [reflexivity|].
    repeat constructor. }
  assert (Hfaces : Forall (face_inside 5 2) (cap_faces small_env)).
  { repeat constructor; cbn; lia. }
  exact (reference_matches_box init _ small_env 5 2 Hcap Hrect Hfaces).
Defined.

End Region.

Section StartStop.
Import Detector Geometry.

(** X4.  [start_monitoring] succeeds exactly when a reference and its box are
    stored; a call on a detector that is already monitoring changes nothing,
    in particular not the counter; so does a repeated call. *)
Theorem start_monitoring_idempotent (d : detector) :
  (snd (start_monitoring d) = true <->
   reference_face d <> None /\ face_bbox d <> None) /\
  (monitoring d = true -> fst (start_monitoring d) = d) /\
  start_monitoring (fst (start_monitoring d))
  = (fst (start_monitoring d), snd (start_monitoring d)).
Proof.
  unfold start_monitoring.
  destruct (reference_face d) as [r|] eqn:R; destruct (face_bbox d) as [b|] eqn:B;
    try (cbn [fst snd]; rewrite ?R, ?B;
         repeat split; try discriminate; try reflexivity;
         intros [H1 H2]; congruence).
  destruct (monitoring d) eqn:M; cbn [fst snd reference_face face_bbox monitoring];
    rewrite ?R, ?B, ?M; repeat split; try discriminate; reflexivity.
Qed.

(** X5.  [stop_monitoring] always succeeds and is idempotent; it keeps the
    reference, the box, the counter and the time of the last event.  A
    detector with a reference can then be started again without a new
    capture: the counter starts at 0 again while the time of the last event
    is kept. *)
Theorem stop_then_restart (d : detector) :
  let stopped := fst (stop_monitoring d) in
  let restarted := fst (start_monitoring stopped) in
  snd (stop_monitoring d) = true /\
  monitoring stopped = false /\ camera_opened stopped = false /\
  reference_face stopped = reference_face d /\
  face_bbox stopped = face_bbox d /\
  intrusion_count stopped = intrusion_count d /\
  stop_monitoring stopped = (stopped, true) /\
  (reference_face d <> None -> face_bbox d <> None ->
   snd (start_monitoring stopped) = true /\
   monitoring restarted = true /\ intrusion_count restarted = 0 /\
   last_intrusion_time restarted = last_intrusion_time d /\
   reference_face restarted = reference_face d).
Proof.
  unfold stop_monitoring, start_monitoring. cbn.
  repeat split.
  all: destruct (reference_face d); destruct (face_bbox d);
    try congruence; reflexivity.
Qed.

End StartStop.

Section Frames.
Import PyFloat Detector Geometry Samples Cases.






End Frames.

Section Loud.
Import PyFloat Detector Geometry Cases.

Lemma rne_exact (k d : Z) : 0 < d -> rne (k * d) d = k.
Proof.
  intros Hd. pose proof (rne_half_up (k * d) d Hd).
  pose proof (rne_half_down (k * d) d Hd). nia.
Qed.

Lemma truediv_same (n : Z) : 0 < n -> truediv n n = Finite one.
Proof.
  intros Hn. rewrite truediv_pos by lia.
  assert (Hone : 0 < one) by reflexivity.
  destruct (round_ratio_pos (n * one) n ltac:(nia) Hn) as [E _].
  assert (Ht : ulp_shift (n * one) n = 1022).
  { unfold ulp_shift. rewrite Z.mul_comm, Z.div_mul by lia.
    unfold one. rewrite Z.log2_pow2 by (unfold unit_exp; lia). reflexivity. }
  rewrite Ht in E.
  assert (E1 : n * one = 2 ^ 52 * (n * 2 ^ 1022))
    by (replace one with (2 ^ 52 * 2 ^ 1022) by reflexivity; ring).
  rewrite E1 in E at 2. rewrite rne_exact in E
    by (assert (0 < 2 ^ 1022) by reflexivity; nia).
  rewrite E. reflexivity.
Qed.

Lemma row_count_apart (r1 r2 : list Z) :
  Forall2 (fun p q => 30 < Z.abs (p - q)) r1 r2 ->
  List.length
    (filter (fun v => 0 <? v)
       (map (fun v => if 30 <? v then 255 else 0)
            (map (fun px => Z.abs (fst px - snd px)) (combine r1 r2))))
  = List.length r1.
Proof.
  induction 1 as [|p q r1 r2 H _ IH]; simpl; [reflexivity|].
  destruct (Z.ltb_spec 30 (Z.abs (p - q))); [|lia]. simpl. now rewrite IH.
Qed.

Lemma apart_counts (W : Z) (a b : image) :
  apart a b -> Forall (fun row => Z.of_nat (List.length row) = W) a ->
  differing_pixels a b = shape0 a * W /\
  shape0 (threshold_binary 30 255 (absdiff a b)) = shape0 a /\
  (a <> [] -> shape1 (threshold_binary 30 255 (absdiff a b)) = W).
Proof.
  unfold apart, differing_pixels, absdiff, threshold_binary, count_positive,
    shape0, shape1.
  induction 1 as [|r1 r2 a b H Hrest IH]; intros Hrows.
  - simpl. repeat split. congruence.
  - inversion Hrows as [|? ? Hr Hrs]; subst.
    destruct (IH Hrs) as (IH1 & IH2 & _).
    cbn [map combine fold_right List.length hd fst snd].
    rewrite row_count_apart by assumption.
    rewrite IH1. repeat split.
    + rewrite Nat2Z.inj_succ. lia.
    + rewrite !Nat2Z.inj_succ. lia.
    + intros _. rewrite !length_map.
      rewrite length_combine.
      apply Forall2_length in H. rewrite <- H, Nat.min_id. reflexivity.
Qed.

(** X7.  A region every pixel of which differs from a non-empty reference by
    more than 30 grey levels signals an intrusion. *)
Theorem apart_region_is_signalled (reference roi resized : image) (W H : Z) :
  rectangular W H reference -> 0 < W -> 0 < H ->
  apart reference (compared reference roi resized) ->
  check_intrusion reference roi resized = true.
Proof.
  intros [Hh Hrows] HW HH Hap.
  destruct (apart_counts W _ _ Hap Hrows) as (Hc & H0 & H1).
  assert (Hne : reference <> [])
    by (intros ->; unfold shape0 in Hh; simpl in Hh; lia).
  specialize (H1 Hne).
  unfold check_intrusion, diff_percentage.
  fold (differing_pixels reference (compared reference roi resized)).
  rewrite Hc, H0, H1, Hh, truediv_same by nia. reflexivity.
Qed.

Lemma apart_region_is_signalled_witness :
  check_intrusion ref4 roi4_far [] = true.
Proof.
  apply (apart_region_is_signalled ref4 roi4_far [] 2 2).
  - split; [reflexivity|repeat constructor].
  - lia.
  - lia.
  - repeat constructor; cbn; lia.
Defined.

End Loud.

Section Rate.
Import PyFloat Detector Geometry Samples.

Lemma round_ratio_ge_seconds (z n : Z) :
  0 <= n < 2 ^ 53 -> n * one <= z -> n * one <= round_ratio z 1.
Proof.
  intros Hn Hz.
  assert (Hone : 0 < one) by reflexivity.
  destruct (round_ratio_pos z 1 ltac:(nia) ltac:(lia)) as [-> Hpos].
  set (t := ulp_shift z 1).
  assert (Ht0 : 0 <= t) by apply ulp_shift_nonneg.
  assert (HT : 0 < 2 ^ t) by (apply Z.pow_pos_nonneg; lia).
  destruct (Z_le_gt_dec t unit_exp) as [Hle|Hgt].
  - pose proof (one_split t ltac:(lia)) as E1.
    assert (HU : 0 < 2 ^ (unit_exp - t)) by (apply Z.pow_pos_nonneg; lia).
    pose proof (rne_half_down z (1 * 2 ^ t) ltac:(lia)) as Hdn.
    rewrite E1 in Hz |- *.
    set (T := 2 ^ t) in *. set (U := 2 ^ (unit_exp - t)) in *.
    set (m := rne z (1 * T)) in *.
    assert (Hm : 2 * (n * U) - 1 <= 2 * m) by nia.
    assert (n * U <= m) by lia. nia.
  - pose proof (mantissa_ge z 1 ltac:(nia) ltac:(lia)
                  ltac:(fold t; unfold unit_exp in Hgt; lia)) as Hm.
    fold t in Hm.
    assert (HT' : 2 * one <= 2 ^ t).
    { replace (2 * one) with (2 ^ (unit_exp + 1)) by reflexivity.
      apply Z.pow_le_mono_r; lia. }
    set (T := 2 ^ t) in *. set (m := rne z (1 * T)) in *.
    change (2 ^ 52) with 4503599627370496 in Hm.
    change (2 ^ 53) with 9007199254740992 in Hn. nia.
Qed.

(** X8.  While at most 5 seconds have passed since the stored time of the last
    event, an iteration of the loop records nothing, whatever the frame
    shows; once at least 6 seconds have passed, a frame that shows an
    intrusion is recorded: the counter grows by one and the stored time
    becomes the next reading of the clock. *)
Theorem cooldown_window (clock : nat -> float) (st : loop_state)
        (env : frame_env) :
  let d := loop_detector st in
  let now := clock (loop_ticks st) in
  (now <= last_intrusion_time d + intrusion_cooldown * one ->
   loop_detector (monitor_step clock st env) = d /\
   loop_events (monitor_step clock st env) = loop_events st) /\
  (last_intrusion_time d + 6 * one <= now ->
   forall frame x1 y1 x2 y2 reference,
     frame_read env = Some frame ->
     face_bbox d = Some (x1, y1, x2, y2) ->
     reference_face d = Some reference ->
     check_intrusion reference (crop frame y1 y2 x1 x2) (frame_resized env)
     = true ->
     intrusion_count (loop_detector (monitor_step clock st env))
     = intrusion_count d + 1 /\
     last_intrusion_time (loop_detector (monitor_step clock st env))
     = clock (S (loop_ticks st))).
Proof.
  intros d now. split.
  - intros Hnow. unfold monitor_step. fold d.
    destruct (frame_read env) as [frame|]; [|split; reflexivity].
    destruct (face_bbox d) as [[[[x1 y1] x2] y2]|]; [|split; reflexivity].
    destruct (reference_face d) as [reference|]; [|split; reflexivity].
    destruct (check_intrusion _ _ _); [|split; reflexivity].
    fold now.
    assert (G : gtb (sub now (last_intrusion_time d)) (intrusion_cooldown * one)
                = false).
    { unfold gtb, sub, intrusion_cooldown in *. apply Z.ltb_ge.
      apply round_ratio_le_seconds; [split; [lia|reflexivity]|lia]. }
    rewrite G. split; reflexivity.
  - intros Hnow frame x1 y1 x2 y2 reference Hf Hb Hr Hc.
    unfold monitor_step. fold d. rewrite Hf, Hb, Hr, Hc. fold now.
    assert (G : gtb (sub now (last_intrusion_time d)) (intrusion_cooldown * one)
                = true).
    { unfold gtb, sub, intrusion_cooldown. apply Z.ltb_lt.
      pose proof (round_ratio_ge_seconds (now - last_intrusion_time d) 6
                    ltac:(split; [lia|reflexivity]) ltac:(lia)).
      assert (0 < one) by reflexivity. lia. }
    rewrite G. split; reflexivity.
Qed.

Lemma last_cons (A : Type) (l : list A) (a d : A) :
  last (a :: l) d = last l a.
Proof.
  revert a d. induction l as [|b l IH]; intros a d; [reflexivity|].
  change (last (a :: b :: l) d) with (last (b :: l) d).
  rewrite (IH b d). symmetry. apply IH.
Qed.

Lemma spaced_span (gap : Z) (older : list intrusion_event)
      (newest : intrusion_event) :
  spaced gap (newest :: older) ->
  Z.of_nat (List.length older) * (gap * one)
  <= event_time newest - event_time (last older newest).
Proof.
  revert newest. induction older as [|e older IH]; intros newest H.
  - simpl. lia.
  - destruct H as [[Hgap _] Hrest]. specialize (IH e Hrest).
    rewrite last_cons. rewrite length_cons, Nat2Z.inj_succ. lia.
Qed.

Lemma monitor_loop_inv (clock : nat -> float) (d : detector) (opens : bool)
      (ticks : nat) (frames : list frame_env) :
  nondecreasing clock ->
  loop_inv clock (intrusion_count d) (monitor_loop clock d opens ticks frames).
Proof.
  intros Hclock. unfold monitor_loop, start_camera.
  destruct (camera_opened d); [|destruct opens]; simpl;
    try (apply monitor_fold_inv; [assumption|]);
    unfold loop_inv; simpl; repeat split; lia.
Qed.

(** X9.  The events of a run are rate limited: under a clock that does not run
    backwards, [k + 1] recorded events span at least [5 k] seconds between
    the first and the last stored time. *)
Theorem events_rate_limited (clock : nat -> float) (d : detector)
        (opens : bool) (ticks : nat) (frames : list frame_env) :
  nondecreasing clock ->
  match loop_events (monitor_loop clock d opens ticks frames) with
  | [] => True
  | newest :: older =>
      Z.of_nat (List.length older) * (intrusion_cooldown * one)
      <= event_time newest - event_time (last older newest)
  end.
Proof.
  intros Hclock.
  destruct (monitor_loop_inv clock d opens ticks frames Hclock) as (Hsp & _).
  destruct (loop_events _) as [|newest older]; [exact I|].
  apply spaced_span. exact Hsp.
Qed.

Lemma events_rate_limited_witness :
  List.length (loop_events (monitor_loop slow_clock watching true 0
                                         (repeat intruded 4))) = 2%nat /\
  match loop_events (monitor_loop slow_clock watching true 0
                                  (repeat intruded 4)) with
  | [] => True
  | newest :: older =>
      Z.of_nat (List.length older) * (intrusion_cooldown * one)
      <= event_time newest - event_time (last older newest)
  end.
Proof.
  split; [vm_compute; reflexivity|].
  apply events_rate_limited.
  intros i j Hij. unfold slow_clock.
  apply Z.mul_le_mono_nonneg_r; [discriminate|].
  apply Z.add_le_mono_l. apply Z.div_le_mono; lia.
Defined.

Lemma monitor_step_keeps (clock : nat -> float) (st : loop_state)
      (env : frame_env) :
  let d := loop_detector st in
  let d' := loop_detector (monitor_step clock st env) in
  reference_face d' = reference_face d /\ face_bbox d' = face_bbox d /\
  monitoring d' = monitoring d /\ camera_opened d' = camera_opened d /\
  intrusion_detected d' = intrusion_detected d /\
  intrusion_count d <= intrusion_count d'.
Proof.
  cbn zeta. unfold monitor_step.
  destruct (frame_read env) as [frame|];
    [|repeat split; try reflexivity; cbv beta iota; lia].
  destruct (face_bbox (loop_detector st)) as [[[[x1 y1] x2] y2]|] eqn:B;
    [|cbv beta iota; rewrite ?B; repeat split; try reflexivity; lia].
  destruct (reference_face (loop_detector st)) as [reference|] eqn:R;
    [|cbv beta iota; rewrite ?B, ?R; repeat split; try reflexivity; lia].
  destruct (check_intrusion _ _ _);
    [|cbv beta iota; rewrite ?B, ?R; repeat split; try reflexivity; lia].
  destruct (gtb _ _); cbn; rewrite ?B, ?R; repeat split; try reflexivity; lia.
Qed.

Lemma guarded_step_keeps (clock : nat -> float) (st : loop_state)
      (env : frame_env) (b : bool) :
  let d := loop_detector st in
  let d' := loop_detector (if b then monitor_step clock st env else st) in
  reference_face d' = reference_face d /\ face_bbox d' = face_bbox d /\
  monitoring d' = monitoring d /\ camera_opened d' = camera_opened d /\
  intrusion_detected d' = intrusion_detected d /\
  intrusion_count d <= intrusion_count d'.
Proof.
  destruct b.
  - exact (monitor_step_keeps clock st env).
  - cbn zeta. repeat split; try reflexivity; lia.
Qed.

Lemma monitor_frames_keeps (clock : nat -> float) (frames : list frame_env)
      (st : loop_state) :
  let d := loop_detector st in
  let d' := loop_detector (monitor_frames clock st frames) in
  reference_face d' = reference_face d /\ face_bbox d' = face_bbox d /\
  monitoring d' = monitoring d /\ camera_opened d' = camera_opened d /\
  intrusion_detected d' = intrusion_detected d /\
  intrusion_count d <= intrusion_count d'.
Proof.
  revert st. induction frames as [|env frames IH]; intros st.
  - cbn. repeat split; try reflexivity; lia.
  - cbn zeta.
    change (monitor_frames clock st (env :: frames)) with
      (monitor_frames clock
         (if monitoring (loop_detector st)
          then monitor_step clock st env else st) frames).
    set (st1 := if monitoring (loop_detector st)
                then monitor_step clock st env else st).
    pose proof (IH st1) as H. cbn zeta in H.
    assert (K : reference_face (loop_detector st1)
                = reference_face (loop_detector st) /\
                face_bbox (loop_detector st1) = face_bbox (loop_detector st) /\
                monitoring (loop_detector st1)
                = monitoring (loop_detector st) /\
                camera_opened (loop_detector st1)
                = camera_opened (loop_detector st) /\
                intrusion_detected (loop_detector st1)
                = intrusion_detected (loop_detector st) /\
                intrusion_count (loop_detector st)
                <= intrusion_count (loop_detector st1)).
    { exact (guarded_step_keeps clock st env (monitoring (loop_detector st))). }
    destruct H as (H1 & H2 & H3 & H4 & H5 & H6).
    destruct K as (K1 & K2 & K3 & K4 & K5 & K6).
    repeat split; try congruence. lia.
Qed.

(** X10.  The monitoring loop touches nothing of the detector but the event
    counter and the time of the last event: the reference region, the box
    and the detected flag are what they were on entry, the counter never
    goes down, and the monitoring flag changes only when the camera cannot
    be opened, in which case it is cleared and nothing is recorded. *)
Theorem monitor_loop_frame (clock : nat -> float) (d : detector)
        (opens : bool) (ticks : nat) (frames : list frame_env) :
  let st := monitor_loop clock d opens ticks frames in
  let d' := loop_detector st in
  reference_face d' = reference_face d /\ face_bbox d' = face_bbox d /\
  intrusion_detected d' = intrusion_detected d /\
  intrusion_count d' = intrusion_count d + Z.of_nat (List.length (loop_events st)) /\
  (camera_opened d || opens = true -> monitoring d' = monitoring d) /\
  (camera_opened d || opens = false ->
   monitoring d' = false /\ loop_events st = [] /\
   intrusion_count d' = intrusion_count d /\
   last_intrusion_time d' = last_intrusion_time d).
Proof.
  cbn zeta.
  assert (Hcount :
    forall st0, loop_events st0 = [] ->
      intrusion_count (loop_detector (monitor_frames clock st0 frames))
      = intrusion_count (loop_detector st0)
        + Z.of_nat (List.length (loop_events (monitor_frames clock st0 frames)))).
  { intros st0 E.
    assert (G : forall fs st1,
      intrusion_count (loop_detector st1)
      = intrusion_count (loop_detector st0)
        + Z.of_nat (List.length (loop_events st1)) ->
      intrusion_count (loop_detector (monitor_frames clock st1 fs))
      = intrusion_count (loop_detector st0)
        + Z.of_nat (List.length (loop_events (monitor_frames clock st1 fs)))).
    { induction fs as [|env fs IH]; intros st1 H1; [exact H1|].
      unfold monitor_frames. cbn [fold_left].
      apply IH. destruct (monitoring (loop_detector st1)); [|exact H1].
      unfold monitor_step.
      destruct (frame_read env); [|exact H1].
      destruct (face_bbox _) as [[[[x1 y1] x2] y2]|]; [|exact H1].
      destruct (reference_face _); [|exact H1].
      destruct (check_intrusion _ _ _); [|exact H1].
      destruct (gtb _ _); cbn; [|exact H1].
      rewrite H1. lia. }
    apply G. rewrite E. cbn. lia. }
  unfold monitor_loop, start_camera.
  destruct (camera_opened d) eqn:C.
  - cbn [negb orb].
    pose proof (monitor_frames_keeps clock frames (mkLoop d ticks [])) as K.
    cbn zeta in K. cbn [loop_detector] in K.
    destruct K as (K1 & K2 & K3 & K4 & K5 & K6).
    pose proof (Hcount (mkLoop d ticks []) eq_refl) as Hc.
    cbn [loop_detector] in Hc.
    repeat split; try assumption; try discriminate. intros _. exact K3.
  - destruct opens; cbn [negb orb].
    + pose proof (monitor_frames_keeps clock frames
                    (mkLoop (set_camera d true) ticks [])) as K.
      cbn zeta in K. cbn [loop_detector] in K.
      destruct K as (K1 & K2 & K3 & K4 & K5 & K6).
      pose proof (Hcount (mkLoop (set_camera d true) ticks []) eq_refl) as Hc.
      cbn [loop_detector] in Hc.
      repeat split; try assumption; try discriminate. intros _. exact K3.
    + cbn. repeat split; try discriminate; try reflexivity; lia.
Qed.

End Rate.

(** *** More on the questions, the answers and the setup *)

Section Questions.
Import PySeq PyStr Conductor Cases.





End Questions.

Section Lines.
Import PySeq PyStr Conductor Text Cases.














End Lines.

Section Stop.
Import PySeq PyStr Conductor.

(** X13.  [stop_interview] is idempotent: on a conductor that is not in
    progress it says nothing and changes nothing, so a second call after a
    first one is a no-op; the first call keeps the questions, the answers
    and the position, and leaves the detector unmonitored when intrusion
    detection is in use. *)
Theorem stop_interview_idempotent (c : conductor) :
  stop_interview (fst (stop_interview c)) = (fst (stop_interview c), []) /\
  interview_in_progress (fst (stop_interview c)) = false /\
  interview_questions (fst (stop_interview c)) = interview_questions c /\
  candidate_answers (fst (stop_interview c)) = candidate_answers c /\
  current_question_index (fst (stop_interview c)) = current_question_index c /\
  (interview_in_progress c = true -> use_intrusion_detection c = true ->
   Detector.monitoring (intrusion_detector (fst (stop_interview c))) = false /\
   Detector.intrusion_count (intrusion_detector (fst (stop_interview c)))
   = Detector.intrusion_count (intrusion_detector c)).
Proof.
  unfold stop_interview.
  destruct (interview_in_progress c) eqn:P.
  - cbn [use_intrusion_detection with_stop_recording with_in_progress].
    destruct (use_intrusion_detection c) eqn:U; cbn; repeat split;
      intros; try discriminate; reflexivity.
  - cbn [fst]. rewrite P. repeat split; intros; try discriminate; reflexivity.
Qed.

(** X14.  The capture loop ends at the first failure of the microphone that is
    no time-out: whatever would have been heard afterwards is not part of
    the answer, while a time-out before any such failure loses nothing. *)
Theorem capture_stops_at_error (before after : list listen) :
  capture (before ++ ListenError :: after) = capture before /\
  (~ In ListenError before ->
   capture (before ++ WaitTimeoutError :: after)
   = capture before ++ capture after).
Proof.
  split.
  - induction before as [|a before IH]; [reflexivity|].
    destruct a; cbn [app capture]; try rewrite IH; reflexivity.
  - induction before as [|a before IH]; intros Hout; [reflexivity|].
    assert (Hrest : ~ In ListenError before)
      by (intros H; apply Hout; right; exact H).
    destruct a; cbn [app capture].
    + rewrite (IH Hrest). reflexivity.
    + exact (IH Hrest).
    + exfalso. apply Hout. left. reflexivity.
Qed.

End Stop.

Section Setup.
Import PySeq PyStr Conductor Samples Cases.


Lemma capture_reference_stored (d : Detector.detector)
      (env : Detector.capture_env) :
  snd (Detector.capture_reference_face d env) = true ->
  let d' := fst (Detector.capture_reference_face d env) in
  Detector.reference_face d' <> None /\ Detector.face_bbox d' <> None /\
  Detector.camera_opened d' = true /\
  Detector.monitoring d' = Detector.monitoring d.
Proof.
  unfold Detector.capture_reference_face, Detector.start_camera.
  destruct (Detector.camera_opened d) eqn:C.
  - cbn [negb].
    destruct (Detector.cap_frame env) as [frame|]; [|discriminate].
    destruct (Detector.select_face (Detector.cap_faces env)) as [f|];
      [|discriminate].
    destruct (Detector.padded_bbox frame f) as [[[x1 y1] x2] y2].
    intros _. cbn. repeat split; try discriminate. exact C.
  - destruct (Detector.cap_opens env); cbn [negb]; [|discriminate].
    destruct (Detector.cap_frame env) as [frame|]; [|discriminate].
    destruct (Detector.select_face (Detector.cap_faces env)) as [f|];
      [|discriminate].
    destruct (Detector.padded_bbox frame f) as [[[x1 y1] x2] y2].
    intros _. cbn. repeat split; discriminate.
Qed.



(** X16.  How [start_interview] arms the session: it is in progress at
    question 0; intrusion detection stays in use exactly when it was wanted
    and a reference region and a box are stored; and then the detector is
    really monitoring exactly when it was already, or its camera is open or
    can be opened: when the camera fails, the session goes on with
    detection announced and nothing monitored. *)
Theorem arm_outcome (c : conductor) (opens : bool) :
  let d := intrusion_detector c in
  let c' := arm c opens in
  interview_in_progress c' = true /\
  current_question_index c' = 0 /\
  (use_intrusion_detection c' = true <->
   use_intrusion_detection c = true /\
   Detector.reference_face d <> None /\ Detector.face_bbox d <> None) /\
  (use_intrusion_detection c' = true ->
   Detector.monitoring (intrusion_detector c')
   = Detector.monitoring d || Detector.camera_opened d || opens) /\
  (use_intrusion_detection c = false -> intrusion_detector c' = d).
Proof.
  cbn zeta. unfold arm.
  cbn [use_intrusion_detection intrusion_detector with_index with_in_progress].
  destruct (use_intrusion_detection c) eqn:U.
  - unfold Detector.start_monitoring.
    destruct (Detector.reference_face (intrusion_detector c)) as [r|] eqn:R.
    + destruct (Detector.face_bbox (intrusion_detector c)) as [b|] eqn:B.
      * destruct (Detector.monitoring (intrusion_detector c)) eqn:M.
        -- cbn. rewrite U, M. repeat split; try discriminate.
        -- unfold Detector.monitor_loop, Detector.start_camera.
           cbn [Detector.camera_opened].
           destruct (Detector.camera_opened (intrusion_detector c)) eqn:C.
           ++ cbn. rewrite U. repeat split; try discriminate.
           ++ destruct opens; cbn; rewrite U; repeat split; try discriminate.
      * cbn. repeat split; try discriminate.
        intros (_ & _ & H). exfalso. apply H. reflexivity.
    + cbn. repeat split; try discriminate.
      intros (_ & H & _). exfalso. apply H. reflexivity.
  - cbn. rewrite U. repeat split; try discriminate.
    intros (H & _). discriminate H.
Qed.

(** X17.  After a setup the detector of an armed session monitors exactly when
    intrusion detection is in use, whatever the camera answers when the
    monitoring thread starts, and its event counter is 0. *)
Theorem session_armed_after_setup (setup : setup_env) (c : conductor)
        (printed : list event) (opens : bool) :
  configure init setup = Some (c, printed) ->
  let c' := arm c opens in
  use_intrusion_detection c' = use_intrusion_detection c /\
  Detector.monitoring (intrusion_detector c') = use_intrusion_detection c /\
  Detector.intrusion_count (intrusion_detector c') = 0 /\
  interview_questions c' = interview_questions c.
Proof.
  intros H. cbn zeta.
  assert (Hd : (use_intrusion_detection c = true ->
                Detector.reference_face (intrusion_detector c) <> None /\
                Detector.face_bbox (intrusion_detector c) <> None /\
                Detector.camera_opened (intrusion_detector c) = true) /\
               Detector.monitoring (intrusion_detector c) = false /\
               Detector.intrusion_count (intrusion_detector c) = 0).
  { revert H. unfold configure.
    destruct (read_positive (typed_durations setup)) as [dur|]; [|discriminate].
    destruct (read_positive (typed_answer_times setup)) as [ans|];
      [|discriminate].
    destruct (read_choice (typed_detection setup)) as [wanted|];
      [|discriminate].
    set (dc := if wanted
               then Detector.capture_reference_face (intrusion_detector init)
                                                    (setup_capture setup)
               else (intrusion_detector init, false)).
    assert (Hdc : dc = (fst dc, snd dc)) by (destruct dc; reflexivity).
    rewrite Hdc.
    destruct (question_count dur ans) as [n|] eqn:Q; [|discriminate].
    pose proof (question_count_range dur ans n Q) as Hn.
    set (c1 := mkConductor _ _ _ _ _ _ _ _ _ _ _ _).
    intros H. injection H as Hg.
    assert (Hc : fst (generate_questions c1 (questions_response setup)) = c)
      by (rewrite Hg; reflexivity).
    destruct (generate_questions_planned c1 (questions_response setup)
                ltac:(unfold c1; cbn [num_questions]; lia))
      as (_ & questions & Hq).
    rewrite Hc in Hq. rewrite Hq. unfold c1.
    cbn [use_intrusion_detection intrusion_detector with_answers
         with_questions].
    assert (Hkeep : Detector.monitoring (fst dc) = false /\
                    Detector.intrusion_count (fst dc) = 0).
    { unfold dc. destruct wanted; [|split; reflexivity].
      unfold Detector.capture_reference_face, Detector.start_camera.
      cbn [intrusion_detector init Detector.camera_opened Detector.init].
      destruct (Detector.cap_opens (setup_capture setup)); cbn [negb];
        [|split; reflexivity].
      destruct (Detector.cap_frame (setup_capture setup)) as [frame|];
        [|split; reflexivity].
      destruct (Detector.select_face _) as [f|]; [|split; reflexivity].
      destruct (Detector.padded_bbox frame f) as [[[x1 y1] x2] y2].
      split; reflexivity. }
    split; [|exact Hkeep].
    intros Hw. apply andb_true_iff in Hw. destruct Hw as [-> Hcap].
    unfold dc in *.
    destruct (capture_reference_stored _ _ Hcap) as (H1 & H2 & H3 & _).
    repeat split; assumption. }
  destruct Hd as (Hon & Hmon & Hcount).
  unfold arm.
  cbn [use_intrusion_detection intrusion_detector with_index with_in_progress].
  destruct (use_intrusion_detection c) eqn:U.
  - destruct (Hon eq_refl) as (HR & HB & HC).
    unfold Detector.start_monitoring.
    destruct (Detector.reference_face (intrusion_detector c)) as [r|];
      [|exfalso; apply HR; reflexivity].
    destruct (Detector.face_bbox (intrusion_detector c)) as [b|];
      [|exfalso; apply HB; reflexivity].
    rewrite Hmon. unfold Detector.monitor_loop, Detector.start_camera.
    cbn [Detector.camera_opened]. rewrite HC. cbn. rewrite U.
    repeat split.
  - cbn. rewrite U, Hmon, Hcount. repeat split.
Qed.

Lemma session_armed_after_setup_witness :
  use_intrusion_detection (arm (fst after_watched_setup) false) = true /\
  Detector.monitoring
    (intrusion_detector (arm (fst after_watched_setup) false)) = true /\
  Detector.intrusion_count
    (intrusion_detector (arm (fst after_watched_setup) false)) = 0.
Proof.
  assert (E : configure init watched_setup
              = Some (fst after_watched_setup, snd after_watched_setup))
    by (vm_compute; reflexivity).
  pose proof (session_armed_after_setup watched_setup
                (fst after_watched_setup) (snd after_watched_setup) false E)
    as W.
  cbv zeta in W. destruct W as (Wu & Wm & Wc & _).
  assert (U : use_intrusion_detection (fst after_watched_setup) = true)
    by (vm_compute; reflexivity).
  rewrite U in Wu, Wm. repeat split; assumption.
Defined.

End Setup.

(** *** More on the session *)

Section Ending.
Import PySeq PyStr PyFloat Conductor Script Samples Cases.







Lemma asking_spec (c : conductor) :
  asking c = true <->
  current_question_index c < Z.of_nat (List.length (interview_questions c)) /\
  interview_in_progress c = true.
Proof.
  unfold asking. rewrite andb_true_iff, Z.ltb_lt. reflexivity.
Qed.






Lemma asked_app (a b : list event) :
  asked_questions (a ++ b) = asked_questions a ++ asked_questions b.
Proof.
  induction a as [|e a IH]; [reflexivity|].
  destruct e as [u| | | | | | | |]; cbn [app asked_questions];
    try exact IH.
  destruct u; cbn [app]; try exact IH. rewrite IH. reflexivity.
Qed.

Lemma finish_recording_asks (c : conductor) (i : Z)
      (audio : list recognition) :
  asked_questions (snd (finish_recording c i audio)) = [].
Proof.
  unfold finish_recording.
  destruct (setitem _ _ _); [|reflexivity].
  destruct audio; [reflexivity|].
  destruct (interview_in_progress c); reflexivity.
Qed.

Lemma stop_interview_asks (c : conductor) :
  asked_questions (snd (stop_interview c)) = [].
Proof.
  unfold stop_interview. destruct (interview_in_progress c); reflexivity.
Qed.

Lemma answer_window_asks (c : conductor) (env : window_env) :
  asked_questions (snd (answer_window c env)) = [].
Proof.
  unfold answer_window.
  set (c0 := with_stop_recording (watch c env) false).
  set (i := current_question_index c).
  set (audio := capture (win_attempts env)).
  destruct (win_cancel env).
  - apply finish_recording_asks.
  - pose proof (stop_interview_asks c0) as H1.
    destruct (stop_interview c0) as [c1 e1].
    pose proof (finish_recording_asks c1 i audio) as H2.
    destruct (finish_recording c1 i audio) as [c2 e2].
    cbn [snd] in *. rewrite asked_app, H1, H2. reflexivity.
  - pose proof (finish_recording_asks c0 i audio) as H1.
    destruct (finish_recording c0 i audio) as [c1 e1].
    pose proof (stop_interview_asks c1) as H2.
    destruct (stop_interview c1) as [c2 e2].
    cbn [snd] in *. rewrite asked_app, H1, H2. reflexivity.
  - pose proof (stop_interview_asks c0) as H1.
    destruct (stop_interview c0) as [c1 e1].
    pose proof (finish_recording_asks c1 i audio) as H2.
    destruct (finish_recording c1 i audio) as [c2 e2].
    cbn [snd] in *. rewrite asked_app, H1, H2. reflexivity.
Qed.

Lemma intrusion_alert_asks (c : conductor) :
  asked_questions (intrusion_alert c) = [].
Proof.
  unfold intrusion_alert.
  destruct (use_intrusion_detection c && _); [|reflexivity].
  destruct (0 <? _); reflexivity.
Qed.

Lemma advance_asks (c : conductor) (start_time now : float)
      (moved : list event) :
  snd (advance c start_time now) = Some moved -> asked_questions moved = [].
Proof.
  unfold advance.
  destruct (remaining_minutes _ _ _) as [r| |]; [|discriminate|discriminate].
  unfold skip_ahead.
  cbn [interview_questions current_question_index with_index].
  destruct (ltb r (2 * one) && _);
    cbn [snd interview_questions current_question_index with_index];
    intros H; injection H as <-;
    destruct (_ <? _); reflexivity.
Qed.

Lemma end_interview_asks (c : conductor) (feedback : option string) :
  asked_questions (snd (end_interview c feedback)) = [].
Proof.
  unfold end_interview.
  cbn [use_intrusion_detection with_in_progress].
  destruct (use_intrusion_detection c) eqn:U;
    cbn [use_intrusion_detection with_detector with_in_progress
         interview_questions current_question_index];
    destruct (_ <=? _); try reflexivity; rewrite ?U;
    unfold generate_feedback;
    destruct feedback as [[|ch text]|]; reflexivity.
Qed.

Lemma ascending_snoc (lo x : Z) (numbers : list Z) :
  ascending lo numbers -> lo < x -> Forall (fun n => n < x) numbers ->
  ascending lo (numbers ++ [x]).
Proof.
  revert lo. induction numbers as [|n numbers IH]; intros lo Ha Hlo Hall.
  - cbn. split; [exact Hlo|exact I].
  - destruct Ha as [Hn Ha]. inversion Hall as [|? ? Hx Hrest]; subst.
    cbn [app ascending]. split; [exact Hn|]. apply IH; assumption.
Qed.

Lemma asked_so_far_later (questions : list string) (i j : Z)
      (asked : list (Z * string)) :
  i <= j -> asked_so_far questions i asked -> asked_so_far questions j asked.
Proof.
  intros Hij [Ha Hf]. split; [exact Ha|].
  eapply Forall_impl; [|exact Hf]. cbv beta. intros kq (H1 & H2 & H3).
  repeat split; try lia; exact H3.
Qed.

Lemma asked_so_far_snoc (questions : list string) (i : Z) (q : string)
      (asked : list (Z * string)) :
  0 <= i < Z.of_nat (List.length questions) ->
  getitem questions i = Some q ->
  asked_so_far questions i asked ->
  asked_so_far questions (i + 1) (asked ++ [(i + 1, q)]).
Proof.
  intros Hi G [Ha Hf]. split.
  - rewrite map_app. cbn [map fst]. apply ascending_snoc; [exact Ha|lia|].
    apply Forall_map. eapply Forall_impl; [|exact Hf]. cbv beta.
    intros kq H. lia.
  - apply Forall_app. split.
    + eapply Forall_impl; [|exact Hf]. cbv beta. intros kq (H1 & H2 & H3).
      repeat split; try lia; exact H3.
    + constructor; [|constructor]. cbn [fst snd].
      rewrite getitem_nonneg in G by exact Hi.
      replace (i + 1 - 1) with i by lia.
      repeat split; try lia. exact G.
Qed.

Lemma greeting_asks (c0 : conductor) :
  asked_questions
    ([Speak Welcome;
      Speak (RoleInfo (job_role c0) (interview_duration c0));
      Speak (AnswerTimeInfo (answer_time c0));
      Speak (QuestionTotal (Z.of_nat (List.length (interview_questions c0))))]
     ++ (if use_intrusion_detection c0 then [Speak DetectionNotice] else [])
     ++ [Speak LetsBegin]) = [].
Proof. destruct (use_intrusion_detection c0); reflexivity. Qed.

(** X19.  Whatever happens during a session, the questions it asks are asked
    under strictly increasing numbers that start above 0, no number beyond
    the number of questions, and the text asked under number [k] is the
    [k]-th planned question: no question is asked twice and none out of
    order. *)
Theorem questions_asked_in_order (c : conductor) (env : session_env) :
  let asked := asked_questions (final_trace (start_interview c env)) in
  ascending 0 (map fst asked) /\
  Forall (fun kq =>
            1 <= fst kq <= Z.of_nat (List.length (interview_questions c)) /\
            nth_error (interview_questions c) (Z.to_nat (fst kq - 1))
            = Some (snd kq)) asked.
Proof.
  cbn zeta.
  set (Q := interview_questions c).
  set (Inv := fun (c1 : conductor) (tr : list event) =>
                interview_questions c1 = Q /\
                0 <= current_question_index c1 /\
                asked_so_far Q (current_question_index c1)
                             (asked_questions tr)).
  set (Post := fun o : outcome =>
                 exists i, asked_so_far Q i (asked_questions (final_trace o))).
  assert (H : Post (start_interview c env)).
  { unfold start_interview.
    apply (question_loop_rule (ses_start_time env) (ses_feedback env)
             Inv Post); unfold Inv, Post; cbv beta.
    - exists 0. split; [exact I|constructor].
    - intros c1 tr (Hq & Hi & Ha) _. exists (current_question_index c1).
      cbn [final_trace]. rewrite asked_app, end_interview_asks, app_nil_r.
      exact Ha.
    - intros c1 tr (Hq & Hi & Ha) _. exists (current_question_index c1).
      exact Ha.
    - intros c1 tr w q (Hq & Hi & Ha) A G _.
      apply asking_spec in A. destruct A as [A _]. rewrite Hq in A, G.
      exists (current_question_index c1 + 1). cbn [final_trace].
      rewrite asked_app. cbn [asked_questions].
      rewrite answer_window_asks.
      apply asked_so_far_snoc; [lia|exact G|exact Ha].
    - intros c1 tr w q (Hq & Hi & Ha) A G _.
      set (c2 := with_stop_recording (fst (answer_window c1 w)) true).
      apply asking_spec in A. destruct A as [A _]. rewrite Hq in A, G.
      destruct (answer_window_script c1 w) as ((Sq & Si & _) & _).
      assert (Q2 : interview_questions c2 = interview_questions c1)
        by exact Sq.
      assert (I2 : current_question_index c2 = current_question_index c1)
        by exact Si.
      assert (Hsaid :
        asked_so_far Q (current_question_index c1 + 1)
          (asked_questions
             (tr ++ Speak (AskQuestion (current_question_index c1 + 1) q)
                 :: snd (answer_window c1 w) ++ intrusion_alert c2))).
      { rewrite asked_app. cbn [asked_questions].
        rewrite asked_app, answer_window_asks, intrusion_alert_asks.
        cbn [app]. apply asked_so_far_snoc; [lia|exact G|exact Ha]. }
      clearbody c2.
      destruct (advance_script c2 (ses_start_time env) (win_now w))
        as (Aq & _ & _ & _ & _ & _ & Ai).
      destruct (snd (advance c2 (ses_start_time env) (win_now w)))
        as [moved|] eqn:Adv.
      + pose proof (advance_asks c2 _ _ moved Adv) as Hm.
        split; [congruence|]. split; [lia|].
        replace (tr ++ (Speak (AskQuestion (current_question_index c1 + 1) q)
                   :: snd (answer_window c1 w) ++ intrusion_alert c2) ++ moved)
          with ((tr ++ Speak (AskQuestion (current_question_index c1 + 1) q)
                   :: snd (answer_window c1 w) ++ intrusion_alert c2) ++ moved)
          by (rewrite <- app_assoc; reflexivity).
        rewrite asked_app, Hm, app_nil_r.
        eapply asked_so_far_later; [|exact Hsaid]. lia.
      + exists (current_question_index c1 + 1). cbn [final_trace].
        exact Hsaid.
    - destruct (arm_lists c (ses_opens env)) as (Hq & _ & _ & Hi).
      split; [exact Hq|]. split; [lia|].
      rewrite Hi. rewrite greeting_asks. split; [exact I|constructor]. }
  destruct H as (i & Ha & Hf). split; [exact Ha|].
  eapply Forall_impl; [|exact Hf]. cbv beta. intros kq (H1 & H2 & H3).
  split; [lia|exact H3].
Qed.








End Ending.

(** *** The answer timer *)

Section Grid.
Import PyFloat.

(** A quotient that is at most a double [m * 2^e] rounds to at most that
    double, and one that is at least it rounds to at least it. *)
Lemma round_ratio_le_grid (a d m e : Z) :
  0 <= a -> 0 < d -> 0 <= e -> 0 <= m < 2 ^ 53 ->
  a <= m * 2 ^ e * d -> round_ratio a d <= m * 2 ^ e.
Proof.
  intros Ha Hd He Hm Hle.
  destruct (round_ratio_pos a d Ha Hd) as [-> _].
  set (t := ulp_shift a d).
  assert (Ht0 : 0 <= t) by apply ulp_shift_nonneg.
  assert (HE : 0 < 2 ^ e) by (apply Z.pow_pos_nonneg; lia).
  assert (Ht : t <= e).
  { apply ulp_shift_le; try lia.
    rewrite Z.pow_add_r by lia.
    assert (m * 2 ^ e * d < 2 ^ 53 * 2 ^ e * d).
    { apply Z.mul_lt_mono_pos_r; [exact Hd|].
      apply Z.mul_lt_mono_pos_r; [exact HE|lia]. }
    lia. }
  assert (E1 : 2 ^ e = 2 ^ (e - t) * 2 ^ t).
  { rewrite <- Z.pow_add_r by lia. f_equal. lia. }
  assert (HT : 0 < 2 ^ t) by (apply Z.pow_pos_nonneg; lia).
  assert (HU : 0 < 2 ^ (e - t)) by (apply Z.pow_pos_nonneg; lia).
  pose proof (rne_half_up a (d * 2 ^ t) ltac:(nia)) as Hup.
  rewrite E1 in Hle |- *.
  set (T := 2 ^ t) in *. set (U := 2 ^ (e - t)) in *.
  set (r := rne a (d * T)) in *.
  assert (HdT : 0 < d * T) by nia.
  assert (Hr : 2 * (r * (d * T)) <= (2 * (m * U) + 1) * (d * T)) by nia.
  assert (2 * r <= 2 * (m * U) + 1).
  { apply Z.mul_le_mono_pos_r with (p := d * T); [exact HdT|].
    rewrite <- Z.mul_assoc. exact Hr. }
  assert (r <= m * U) by lia.
  nia.
Qed.

Lemma round_ratio_ge_grid (a d m e : Z) :
  0 < d -> 0 <= e -> 0 <= m <= 2 ^ 53 ->
  m * 2 ^ e * d <= a -> m * 2 ^ e <= round_ratio a d.
Proof.
  intros Hd He Hm Hle.
  assert (HE : 0 < 2 ^ e) by (apply Z.pow_pos_nonneg; lia).
  assert (Ha : 0 <= a) by nia.
  destruct (round_ratio_pos a d Ha Hd) as [-> _].
  set (t := ulp_shift a d).
  assert (Ht0 : 0 <= t) by apply ulp_shift_nonneg.
  assert (HT : 0 < 2 ^ t) by (apply Z.pow_pos_nonneg; lia).
  destruct (Z_le_gt_dec t e) as [Ht|Ht].
  - assert (E1 : 2 ^ e = 2 ^ (e - t) * 2 ^ t).
    { rewrite <- Z.pow_add_r by lia. f_equal. lia. }
    assert (HU : 0 < 2 ^ (e - t)) by (apply Z.pow_pos_nonneg; lia).
    pose proof (rne_half_down a (d * 2 ^ t) ltac:(nia)) as Hdn.
    rewrite E1 in Hle |- *.
    set (T := 2 ^ t) in *. set (U := 2 ^ (e - t)) in *.
    set (r := rne a (d * T)) in *.
    assert (HdT : 0 < d * T) by nia.
    assert (Hr : (2 * (m * U) - 1) * (d * T) <= 2 * r * (d * T)) by nia.
    assert (2 * (m * U) - 1 <= 2 * r).
    { apply Z.mul_le_mono_pos_r with (p := d * T); [exact HdT|exact Hr]. }
    assert (m * U <= r) by lia.
    nia.
  - pose proof (mantissa_ge a d Ha Hd ltac:(fold t; lia)) as Hman.
    fold t in Hman.
    assert (HT' : 2 * 2 ^ e <= 2 ^ t).
    { replace (2 * 2 ^ e) with (2 ^ (e + 1))
        by (rewrite Z.pow_add_r by lia; lia).
      apply Z.pow_le_mono_r; lia. }
    set (T := 2 ^ t) in *. set (r := rne a (d * T)) in *.
    set (Ee := 2 ^ e) in *.
    change (2 ^ 52) with 4503599627370496 in Hman.
    change (2 ^ 53) with 9007199254740992 in Hm.
    nia.
Qed.

Lemma of_int_exact (n : Z) :
  0 <= n < 2 ^ 53 -> of_int n = Finite (n * one).
Proof.
  intros Hn. unfold of_int.
  assert (Hone : 0 < one) by reflexivity.
  pose proof (round_ratio_le_grid (n * one) 1 n unit_exp ltac:(nia)
                ltac:(lia) ltac:(unfold unit_exp; lia) Hn
                ltac:(fold one; lia)) as Hup.
  pose proof (round_ratio_ge_grid (n * one) 1 n unit_exp
                ltac:(lia) ltac:(unfold unit_exp; lia) ltac:(lia)
                ltac:(fold one; lia)) as Hdn.
  fold one in Hup, Hdn.
  assert (E : round_ratio (n * one) 1 = n * one) by lia.
  rewrite E.
  assert (Hh : n * one < huge).
  { replace huge with (2 ^ 1024 * one) by reflexivity.
    apply Z.mul_lt_mono_pos_r; [exact Hone|].
    assert (2 ^ 53 < 2 ^ 1024) by reflexivity. lia. }
  destruct (Z.leb_spec huge (Z.abs (n * one))) as [H|H]; [|reflexivity].
  exfalso. assert (0 <= n * one) by nia. lia.
Qed.

End Grid.

Section Countdown.
Import PyFloat Timer.

(** X22.  For an answer time below 2^31 seconds the warning threshold of the
    timer is [max(5, seconds // 5)]: the binary product by the literal 0.2,
    which is a little more than one fifth, never reaches the next
    integer. *)
Theorem warning_threshold_fifth (seconds : Z) :
  0 <= seconds < 2 ^ 31 ->
  warning_threshold seconds = Some (Z.max 5 (seconds / 5)).
Proof.
  intros Hs. unfold warning_threshold.
  rewrite of_int_exact by (assert (2 ^ 31 < 2 ^ 53) by reflexivity; lia).
  cbv zeta. unfold mul.
  assert (Hone : 0 < one) by reflexivity.
  set (q := seconds / 5).
  assert (Hq : 5 * q <= seconds < 5 * q + 5).
  { unfold q. pose proof (Z.div_mod seconds 5 ltac:(lia)).
    pose proof (Z.mod_pos_bound seconds 5 ltac:(lia)). lia. }
  assert (Hq0 : 0 <= q) by lia.
  change (2 ^ 31) with 2147483648 in Hs.
  set (p := round_ratio (seconds * one * lit_0_2) one).
  assert (Elit : lit_0_2 = 3602879701896397 * 2 ^ 1020) by reflexivity.
  assert (Eone : one = 18014398509481984 * 2 ^ 1020) by reflexivity.
  assert (H1020 : 0 < 2 ^ 1020) by reflexivity.
  assert (Hlow : q * one <= p).
  { unfold p.
    pose proof (round_ratio_ge_grid (seconds * one * lit_0_2) one q unit_exp
                  Hone ltac:(unfold unit_exp; lia)
                  ltac:(change (2 ^ 53) with 9007199254740992; lia)) as G.
    fold one in G. apply G.
    rewrite Elit. rewrite Eone at 2.
    assert (q * 18014398509481984 <= seconds * 3602879701896397) by lia.
    nia. }
  assert (Hhigh : p <= ((q + 1) * 16777216 - 1) * 2 ^ 1050).
  { unfold p.
    assert (Ha : 0 <= seconds * one * lit_0_2) by (rewrite Elit; nia).
    assert (Hm : 0 <= (q + 1) * 16777216 - 1 < 2 ^ 53)
      by (change (2 ^ 53) with 9007199254740992; lia).
    apply (round_ratio_le_grid (seconds * one * lit_0_2) one
             ((q + 1) * 16777216 - 1) 1050 Ha Hone ltac:(lia) Hm).
    rewrite Elit.
    replace (2 ^ 1050) with (1073741824 * 2 ^ 1020) by reflexivity.
    assert (seconds * 3602879701896397
            <= ((q + 1) * 16777216 - 1) * 1073741824) by lia.
    nia. }
  assert (Hlt : p < (q + 1) * one).
  { replace one with (16777216 * 2 ^ 1050) by reflexivity.
    assert (0 < 2 ^ 1050) by reflexivity. nia. }
  assert (Hp0 : 0 <= p) by nia.
  assert (Hh : p < huge).
  { replace huge with (2 ^ 1024 * one) by reflexivity.
    assert (q + 1 < 2 ^ 1024)
      by (assert (2147483648 < 2 ^ 1024) by reflexivity; lia).
    nia. }
  destruct (Z.leb_spec huge (Z.abs p)) as [H|H]; [lia|].
  f_equal. f_equal. unfold to_int.
  rewrite Z.quot_div_nonneg by lia.
  symmetry. apply Z.div_unique with (r := p - q * one); lia.
Qed.

Lemma warning_threshold_fifth_witness :
  warning_threshold 45 = Some 9.
Proof.
  apply (warning_threshold_fifth 45). split; [lia|reflexivity].
Defined.









End Countdown.

(** *** Roles and feedback *)

Section Roles.
Import PyStr Conductor.





End Roles.

Section Feedback.
Import PyStr Conductor Samples.

(** X26.  The request for feedback lists the questions in their order, each
    with its answer, a placeholder standing in for every empty answer, so
    that no answer of the request is empty; the number of intrusions is
    part of it exactly when intrusion detection is in use. *)
Theorem feedback_request_transcript (c : conductor) :
  List.length (candidate_answers c) = List.length (interview_questions c) ->
  exists transcript intrusions,
    feedback_request c = AskFeedback transcript intrusions /\
    map fst transcript = interview_questions c /\
    Forall (fun qa => snd qa <> ""%string) transcript /\
    (forall k answer,
       nth_error (candidate_answers c) k = Some answer ->
       nth_error (map snd transcript) k
       = Some (if nonempty answer then answer
               else "[No answer provided]"%string)) /\
    intrusions
    = (if use_intrusion_detection c
       then Some (Detector.intrusion_count (intrusion_detector c))
       else None).
Proof.
  intros Hlen. unfold feedback_request. eexists _, _.
  split; [reflexivity|].
  generalize dependent (candidate_answers c).
  generalize (interview_questions c) as questions.
  intros questions answers Hlen.
  split; [|split; [|split]].
  - revert answers Hlen.
    induction questions as [|q questions IH]; intros [|a answers] Hlen;
      try discriminate Hlen; [reflexivity|].
    cbn [combine map fst]. f_equal. apply IH.
    cbn [List.length] in Hlen. lia.
  - apply Forall_map. apply Forall_forall. intros [q a] _. cbn [fst snd].
    destruct a; cbn; discriminate.
  - revert answers Hlen.
    induction questions as [|q questions IH]; intros [|a answers] Hlen;
      try discriminate Hlen; intros [|k] answer H; try discriminate H.
    + cbn in H. injection H as ->. reflexivity.
    + cbn [combine map nth_error]. apply IH; [|exact H].
      cbn [List.length] in Hlen. lia.
  - destruct (use_intrusion_detection c); reflexivity.
Qed.

Lemma feedback_request_transcript_witness :
  exists transcript intrusions,
    feedback_request planned_engineer = AskFeedback transcript intrusions /\
    map fst transcript = interview_questions planned_engineer /\
    Forall (fun qa => snd qa <> ""%string) transcript /\
    (forall k answer,
       nth_error (candidate_answers planned_engineer) k = Some answer ->
       nth_error (map snd transcript) k
       = Some (if nonempty answer then answer
               else "[No answer provided]"%string)) /\
    intrusions
    = (if use_intrusion_detection planned_engineer
       then Some (Detector.intrusion_count
                    (intrusion_detector planned_engineer))
       else None).
Proof.
  apply (feedback_request_transcript planned_engineer). reflexivity.
Defined.

End Feedback.
